(** * build_posts.py: a shallow embedding and its checked properties

    The repository is one Python script, [build_posts.py], that turns a
    directory of markdown posts with a small frontmatter header into HTML
    pages and a [posts.json] index.  This file embeds the functions of the
    script as Rocq functions and proves (or refutes) the statements made
    about them.

    Conventions of the embedding:
    - a Python [str] is a list of Unicode code points, [list N];
    - a Python [dict] used as a mapping is a [gmap]; a [dict] whose key
      order is observable (the post records handed to [json.dumps]) is an
      association list in insertion order;
    - an exception is [None] in the [option] monad;
    - file-system effects are recorded as a trace of events;
    - [markdown.markdown], an external library, is a parameter. *)

From Stdlib Require Import NArith List String Ascii Lia.
From stdpp Require Import base option list gmap sorting.

Open Scope N_scope.

(** ** Python strings *)

Module PyStr.

Abbreviation char := N (only parsing).
Abbreviation str := (list N) (only parsing).

(** A literal of the source, for ASCII text: one code point per byte. *)
Definition py (s : string) : str :=
  map N_of_ascii (list_ascii_of_string s).

(** Characters that a Rocq string literal cannot hold conveniently. *)
Definition NL : char := 10.     (* line feed *)
Definition DQ : char := 34.     (* double quote *)
Definition BSL : char := 92.    (* backslash *)
Definition COLON : char := 58.  (* colon *)
Definition HYPHEN : char := 45. (* hyphen *)

(** [q s] is the literal [s] between double quotes. *)
Definition q (s : string) : str := DQ :: py s ++ [DQ].

(** [s.startswith(p)] *)
Fixpoint startswith (s p : str) {struct p} : bool :=
  match p, s with
  | [], _ => true
  | _ :: _, [] => false
  | a :: p', c :: s' => (c =? a) && startswith s' p'
  end.

(** [c in s] for a one-character [c] *)
Fixpoint contains (c : char) (s : str) : bool :=
  match s with
  | [] => false
  | d :: s' => (d =? c) || contains c s'
  end.

(** [s.split(sep)] for a one-character separator: never empty, one more
    part than there are separators. *)
Fixpoint split (sep : char) (s : str) : list str :=
  match s with
  | [] => [[]]
  | c :: s' =>
      if c =? sep then [] :: split sep s'
      else match split sep s' with
           | p :: ps => (c :: p) :: ps
           | [] => [[c]]
           end
  end.

(** [s.split(sep, maxsplit)]: at most [maxsplit] cuts, from the left; the
    last part keeps the separators that were not used. *)
Fixpoint split_max (sep : char) (s : str) (maxsplit : nat) {struct s}
  : list str :=
  match s with
  | [] => [[]]
  | c :: s' =>
      match maxsplit with
      | O => [s]
      | S k =>
          if c =? sep then [] :: split_max sep s' k
          else match split_max sep s' maxsplit with
               | p :: ps => (c :: p) :: ps
               | [] => [[c]]
               end
      end
  end.

(** [sep.join(parts)] *)
Fixpoint join (sep : str) (parts : list str) : str :=
  match parts with
  | [] => []
  | [p] => p
  | p :: ps => p ++ sep ++ join sep ps
  end.

(** [str.isspace] on one code point: the characters [str.strip()] removes
    (CPython's [Py_UNICODE_ISSPACE]). *)
Definition isspace (c : char) : bool :=
  ((9 <=? c) && (c <=? 13)) || ((28 <=? c) && (c <=? 32))
  || (c =? 133) || (c =? 160) || (c =? 5760)
  || ((8192 <=? c) && (c <=? 8202))
  || (c =? 8232) || (c =? 8233) || (c =? 8239) || (c =? 8287)
  || (c =? 12288).

Fixpoint lstrip (s : str) : str :=
  match s with
  | [] => []
  | c :: s' => if isspace c then lstrip s' else s
  end.

Definition rstrip (s : str) : str := rev (lstrip (rev s)).

(** [s.strip()] *)
Definition strip (s : str) : str := rstrip (lstrip s).

(** [s.replace(old, new)] for a non-empty [old]: every occurrence, left to
    right, without overlap.  [skip] counts the characters of a replaced
    occurrence that are still to be passed over. *)
Fixpoint replace_from (old new : str) (skip : nat) (s : str) : str :=
  match s with
  | [] => []
  | c :: s' =>
      match skip with
      | S k => replace_from old new k s'
      | O =>
          if startswith s old
          then new ++ replace_from old new (length old - 1) s'
          else c :: replace_from old new O s'
      end
  end.

Definition replace (s old new : str) : str := replace_from old new O s.

(** [a < b] on strings: code point by code point, a proper prefix first. *)
Fixpoint str_ltb (a b : str) : bool :=
  match a, b with
  | _, [] => false
  | [], _ :: _ => true
  | x :: a', y :: b' => (x <? y) || ((x =? y) && str_ltb a' b')
  end.

Definition str_leb (a b : str) : bool := negb (str_ltb b a).

End PyStr.

Import PyStr.

(** ** [json.dumps] *)

Module Json.

(** The values the script serialises: strings, lists and dicts with string
    keys (a dict as its items in insertion order). *)
#[local] Set Warnings "-register-all".
Inductive json : Type :=
  | JStr (s : str)
  | JList (items : list json)
  | JDict (items : list (str * json)).
#[local] Set Warnings "register-all".

Definition hexdigit (n : N) : char :=
  if n <? 10 then 48 + n else 87 + n.

(** Four lower-case hexadecimal digits, the format [04x] of a number
    below 65536. *)
Definition hex4 (n : N) : str :=
  [hexdigit (n / 4096 mod 16); hexdigit (n / 256 mod 16);
   hexdigit (n / 16 mod 16); hexdigit (n mod 16)].

Definition u_escape (n : N) : str := BSL :: 117 :: hex4 n.

(** The replacement of one character in [encode_basestring_ascii]:
    printable ASCII other than the quote and the backslash is kept, the
    entries of [ESCAPE_DCT] are used where they exist, everything else is
    written as a [u]-escape, above the basic plane as a surrogate pair. *)
Definition escape_char (c : char) : str :=
  if c =? BSL then [BSL; BSL]
  else if c =? DQ then [BSL; DQ]
  else if (32 <=? c) && (c <=? 126) then [c]
  else if c =? 8 then [BSL; 98]
  else if c =? 12 then [BSL; 102]
  else if c =? 10 then [BSL; 110]
  else if c =? 13 then [BSL; 114]
  else if c =? 9 then [BSL; 116]
  else if c <? 65536 then u_escape c
  else
    let n := c - 65536 in
    let s1 := N.lor 55296 (N.land (N.shiftr n 10) 1023) in
    let s2 := N.lor 56320 (N.land n 1023) in
    u_escape s1 ++ u_escape s2.

Definition encode_basestring_ascii (s : str) : str :=
  DQ :: concat (map escape_char s) ++ [DQ].

(** A newline followed by [indent * level] spaces. *)
Definition newline_indent (indent level : nat) : str :=
  NL :: repeat 32 (indent * level)%nat.

(** [_iterencode] with an integer [indent]: the item separator is a comma,
    the key separator a colon and a space. *)
Fixpoint iterencode (indent level : nat) (o : json) : str :=
  match o with
  | JStr s => encode_basestring_ascii s
  | JList [] => py "[]"
  | JList items =>
      py "[" ++ newline_indent indent (S level)
      ++ join (py "," ++ newline_indent indent (S level))
              (map (iterencode indent (S level)) items)
      ++ newline_indent indent level ++ py "]"
  | JDict [] => py "{}"
  | JDict items =>
      py "{" ++ newline_indent indent (S level)
      ++ join (py "," ++ newline_indent indent (S level))
              (map (fun kv => encode_basestring_ascii (fst kv) ++ py ": "
                              ++ iterencode indent (S level) (snd kv))
                   items)
      ++ newline_indent indent level ++ py "}"
  end.

(** [json.dumps(o, indent=indent)] *)
Definition dumps (o : json) (indent : nat) : str := iterencode indent 0 o.

End Json.

(** ** The script *)

Module BuildPosts.

(** The frontmatter mapping: only looked up, so a finite map. *)
Abbreviation dict := (gmap (list N) (list N)) (only parsing).

(** The lazy group of the pattern followed by a literal and a greedy
    dot-all rest: group 1 is tried at length 0, 1, 2, ...; at the first
    length where the literal [lit] follows, group 2 takes the remainder. *)
Fixpoint lazy_until (lit : str) (s : str) : option (str * str) :=
  if startswith s lit then Some ([], drop (length lit) s)
  else match s with
       | [] => None
       | c :: s' =>
           match lazy_until lit s' with
           | Some (g1, g2) => Some (c :: g1, g2)
           | None => None
           end
       end.

Definition delimiter : str := py "---".

(** The [re.match] of [parse_frontmatter], as the pair of its two groups.
    The pattern, with [re.DOTALL], is: start of the text, the delimiter, a
    newline, a lazy group of any characters, a newline, the delimiter, a
    newline, a greedy group of any characters. *)
Definition re_match (content : str) : option (str * str) :=
  if startswith content (delimiter ++ [NL])
  then lazy_until (NL :: delimiter ++ [NL])
                  (drop (length (delimiter ++ [NL])) content)
  else None.

(** The loop over the frontmatter lines.  [key, value = line.split(':', 1)]
    raises unless the split has exactly two parts. *)
Fixpoint parse_lines (lines : list str) (metadata : dict) : option dict :=
  match lines with
  | [] => Some metadata
  | line :: rest =>
      if contains COLON line then
        match split_max COLON line 1 with
        | [key; value] =>
            parse_lines rest (<[strip key := strip value]> metadata)
        | _ => None
        end
      else parse_lines rest metadata
  end.

Definition parse_frontmatter (content : str) : option (dict * str) :=
  if negb (startswith content delimiter) then Some (∅, content)
  else
    match re_match content with
    | None => Some (∅, content)
    | Some (frontmatter_text, body) =>
        metadata ← parse_lines (split NL frontmatter_text) ∅;
        Some (metadata, body)
    end.

Definition get_slug_from_filename (filename : str) : str :=
  let base := replace filename (py ".md") [] in
  let parts := split_max HYPHEN base 3 in
  if (4 <=? length parts)%nat then join (py "-") (drop 3 parts)
  else base.

(** The page template, cut at the four places where a value is
    interpolated. *)
Definition html_before_title : str :=
  join [NL]
    [ py "<!DOCTYPE html>";
      py "<html lang=" ++ q "en" ++ py ">";
      py "<head>";
      py "    <meta charset=" ++ q "UTF-8" ++ py ">";
      py "    <meta name=" ++ q "viewport" ++ py " content="
        ++ q "width=device-width, initial-scale=1.0" ++ py ">";
      py "    <title>" ].

Definition html_before_heading : str :=
  join [NL]
    [ py " - Jack Wittmayer</title>";
      py "    <link rel=" ++ q "stylesheet" ++ py " href="
        ++ q "../styles.css" ++ py ">";
      py "</head>";
      py "<body>";
      py "    <div class=" ++ q "container" ++ py ">";
      py "        <nav class=" ++ q "navbar" ++ py ">";
      py "            <h1><a href=" ++ q "/" ++ py ">Jack Wittmayer</a></h1>";
      py "            <ul>";
      py "                <li><a href=" ++ q "/about.html"
        ++ py ">About</a></li>";
      py "            </ul>";
      py "        </nav>";
      [];
      py "        <main>";
      py "            <article class=" ++ q "blog-post" ++ py ">";
      py "                <h1>" ].

Definition html_before_date : str :=
  join [NL]
    [ py "</h1>";
      py "                <p class=" ++ q "post-date" ++ py ">" ].

Definition html_before_body : str :=
  join [NL]
    [ py "</p>";
      [];
      py "                " ].

Definition html_after_body : str :=
  join [NL]
    [ [];
      py "            </article>";
      py "        </main>";
      [];
      py "        <footer>";
      py "            <p>" ++ [169] ++ py " 2025 Jack Wittmayer</p>";
      py "        </footer>";
      py "    </div>";
      py "</body>";
      py "</html>" ].

Definition generate_html_file (title date body_html slug : str) : str :=
  html_before_title ++ title ++ html_before_heading ++ title
  ++ html_before_date ++ date ++ html_before_body ++ body_html
  ++ html_after_body.

(** A post record: the dict literal of [build_posts], as its items in
    insertion order. *)
Abbreviation post := (list (list N * list N)) (only parsing).

Definition post_record (title date slug description : str) : post :=
  [ (py "title", title); (py "date", date); (py "slug", slug);
    (py "description", description) ].

(** [post[key]] *)
Fixpoint post_get (p : post) (key : str) : option str :=
  match p with
  | [] => None
  | (k, v) :: p' => if decide (k = key) then Some v else post_get p' key
  end.

Definition post_to_json (p : post) : Json.json :=
  Json.JDict (map (fun kv => (fst kv, Json.JStr (snd kv))) p).

(** What the script does to the file system, in order.  The lines it
    prints are not part of the model, and neither are failures of the file
    system: every file of the directory is taken to be readable text. *)
Inductive event : Type :=
  | MkDir (path : str)
  | WriteFile (path content : str).

(** [generate_posts_json]: the write of [posts.json]. *)
Definition generate_posts_json (posts_list : list post) : list event :=
  let posts_json := Json.dumps (Json.JList (map post_to_json posts_list)) 2 in
  [WriteFile (py "posts.json") posts_json].

(** [name.endswith(suffix)] *)
Definition endswith (s suffix : str) : bool :=
  startswith (rev s) (rev suffix).

(** [posts_dir.glob('*.md')] on a directory given as the list of its files,
    each a name with its text, in the order the system lists them; names
    are compared as on a POSIX system, by code point and with case. *)
Definition glob_md (posts_dir : list (str * str)) : list (str * str) :=
  filter (fun f => Is_true (endswith (fst f) (py ".md"))) posts_dir.

(** The order of [sorted(..., reverse=True)] on paths of one directory:
    [a] comes before [b] when the name of [b] is not above the name of
    [a]. *)
Definition name_ge (a b : str * str) : Prop :=
  Is_true (str_leb (fst b) (fst a)).

#[export] Instance name_ge_dec a b : Decision (name_ge a b).
Proof. unfold name_ge. apply _. Defined.

Definition sorted_reverse (files : list (str * str)) : list (str * str) :=
  merge_sort name_ge files.

(** The state threaded through the loop of [build_posts]: the effects so
    far and [posts_list]. *)
Record state : Type := State {
  trace : list event;
  posts_list : list post
}.

Section WithMarkdown.

(** [markdown.markdown]: an external library. *)
Variable markdown : str -> str.

(** One pass of the loop body, for the file [md_file] with text
    [content]. *)
Definition build_one (st : state) (md_file : str * str) : option state :=
  let '(name, content) := md_file in
  '(metadata, body) ← parse_frontmatter content;
  let title := default (py "Untitled") (metadata !! py "title") in
  let date := default [] (metadata !! py "date") in
  let description := default [] (metadata !! py "description") in
  let body_html := markdown body in
  let slug := get_slug_from_filename name in
  let html_content := generate_html_file title date body_html slug in
  let output_file := py "posts/" ++ slug ++ py ".html" in
  Some (State (trace st ++ [WriteFile output_file html_content])
              (posts_list st ++ [post_record title date slug description])).

Fixpoint build_loop (files : list (str * str)) (st : state) : option state :=
  match files with
  | [] => Some st
  | md_file :: rest => st' ← build_one st md_file; build_loop rest st'
  end.

(** [build_posts()], run in a directory whose [_posts] folder holds
    [posts_dir]: the effects and the returned list. *)
Definition build_posts (posts_dir : list (str * str)) : option state :=
  st ← build_loop (sorted_reverse (glob_md posts_dir))
                  (State [MkDir (py "posts")] []);
  Some (if decide (posts_list st = [])
        then st
        else State (trace st ++ generate_posts_json (posts_list st))
                   (posts_list st)).

End WithMarkdown.

End BuildPosts.

Import BuildPosts.

(** ** The fragments for the front page *)

Module Fragments.

(** [generate_latest_post_html].  A subscript [post[key]] of a missing
    key raises; the subscripts are evaluated from left to right. *)
Definition generate_latest_post_html (p : post) : option str :=
  slug ← post_get p (py "slug");
  title ← post_get p (py "title");
  date ← post_get p (py "date");
  description ← post_get p (py "description");
  slug' ← post_get p (py "slug");
  Some (join [NL]
    [ py "<article class=" ++ q "post" ++ py ">";
      py "                    <h3><a href=" ++ [DQ] ++ py "/posts/" ++ slug
        ++ py ".html" ++ [DQ] ++ py ">" ++ title ++ py "</a></h3>";
      py "                    <p class=" ++ q "post-date" ++ py ">" ++ date
        ++ py "</p>";
      py "                    <p>" ++ description ++ py "</p>";
      py "                    <a href=" ++ [DQ] ++ py "/posts/" ++ slug'
        ++ py ".html" ++ [DQ] ++ py " class=" ++ q "read-more"
        ++ py ">Read more " ++ [8594] ++ py "</a>";
      py "                </article>" ]).

(** One item of the list of all posts. *)
Definition list_item (p : post) : option str :=
  slug ← post_get p (py "slug");
  title ← post_get p (py "title");
  date ← post_get p (py "date");
  Some (join [NL]
    [ py "<li>";
      py "                        <a href=" ++ [DQ] ++ py "/posts/" ++ slug
        ++ py ".html" ++ [DQ] ++ py ">" ++ title ++ py "</a>";
      py "                        <span class=" ++ q "post-list-date"
        ++ py ">" ++ date ++ py "</span>";
      py "                    </li>" ]).

(** The loop of [generate_all_posts_html]: [items] grows by one item a
    post, and the first post that lacks a key stops it. *)
Fixpoint list_items (posts_list : list post) (items : list str)
  : option (list str) :=
  match posts_list with
  | [] => Some items
  | p :: rest => item ← list_item p; list_items rest (items ++ [item])
  end.

Definition generate_all_posts_html (posts_list : list post) : option str :=
  items ← list_items posts_list [];
  Some (join [NL]
    [ py "<ul class=" ++ q "posts-list" ++ py ">";
      py "                " ++ join [NL] items;
      py "            </ul>" ]).

End Fragments.

Import Fragments.

(** ** Vocabulary of the statements *)

Module Statements.

(** The closing delimiter line as the pattern spells it: a newline, the
    delimiter, a newline. *)
Definition closing : str := NL :: delimiter ++ [NL].

(** [line] holds a colon, [key] is the trimmed text before its first colon
    and [value] the trimmed text after it. *)
Definition key_value_line (line key value : str) : Prop :=
  exists a b, line = a ++ COLON :: b /\ (COLON ∉ a)
              /\ key = strip a /\ value = strip b.

Definition has_key (line key : str) : Prop :=
  exists value, key_value_line line key value.

(** The lines of [content] are the delimiter, the lines [blk] none of
    which is the delimiter, the delimiter again, and the lines [rest]. *)
Definition two_delimiters (content : str) (blk rest : list str) : Prop :=
  split NL content = delimiter :: blk ++ delimiter :: rest
  /\ (delimiter ∉ blk).

(** What is said of the result on such a text: the body is everything
    after the second delimiter line, the keys are exactly the trimmed keys
    of the lines of the block that hold a colon, and the value of each key
    is the trimmed text after the first colon of such a line. *)
Definition frontmatter_parsed (content : str) (blk rest : list str) : Prop :=
  exists metadata : dict,
    parse_frontmatter content = Some (metadata, join [NL] rest)
    /\ (forall k, is_Some (metadata !! k)
                  <-> exists line, line ∈ blk /\ has_key line k)
    /\ (forall k v, metadata !! k = Some v
                    -> exists line, line ∈ blk /\ key_value_line line k v).

(** A text from its lines. *)
Definition text (lines : list str) : str := join [NL] lines.

(** [needle] occurs in [hay] as a contiguous piece. *)
Definition occurs_in (needle hay : str) : Prop :=
  exists l r, hay = l ++ needle ++ r.

(** The test [needle in hay]. *)
Fixpoint is_infix (needle hay : str) : bool :=
  startswith hay needle
  || match hay with
     | [] => false
     | _ :: hay' => is_infix needle hay'
     end.

(** The slug as the specification words it: the suffix is stripped, the
    stem is split into at most four parts on the hyphen, and the parts
    after the third hyphen are rejoined, or the stem is kept whole. *)
Definition slug_spec (filename : str) : str :=
  let stem :=
    if endswith filename (py ".md")
    then take (length filename - 3) filename
    else filename in
  let parts := split_max HYPHEN stem 3 in
  if (4 <=? length parts)%nat then join (py "-") (drop 3 parts)
  else stem.

(** Reading of "the renderer interpolates all four values": each of them
    occurs in the page. *)
Definition interpolates_all_four : Prop :=
  forall title date body_html slug,
    let page := generate_html_file title date body_html slug in
    occurs_in title page /\ occurs_in date page
    /\ occurs_in body_html page /\ occurs_in slug page.

(** The tags of the template around the post. *)
Definition article_open : str := py "<article class=" ++ q "blog-post" ++ py ">".
Definition article_close : str := py "</article>".
Definition date_open : str := py "<p class=" ++ q "post-date" ++ py ">".

(** [needle] occurs between the tags of the article. *)
Definition in_article (needle page : str) : Prop :=
  exists l inner r,
    page = l ++ article_open ++ inner ++ article_close ++ r
    /\ occurs_in needle inner.

(** What a page shows of a title, a date and a rendered body: it is a
    document from the doctype to the closing tag, the title is in the
    document title and in a heading, the date is in the date paragraph, and
    the body is inside the article. *)
Definition page_shows (title date body_html page : str) : Prop :=
  startswith page (py "<!DOCTYPE html>") = true
  /\ endswith page (py "</html>") = true
  /\ occurs_in (py "<title>" ++ title ++ py " - Jack Wittmayer</title>") page
  /\ occurs_in (py "<h1>" ++ title ++ py "</h1>") page
  /\ occurs_in (date_open ++ date ++ py "</p>") page
  /\ in_article body_html page.

(** Strictly descending file names. *)
Definition name_gt (a b : str * str) : Prop :=
  str_ltb (fst b) (fst a) = true.

(** The path of the page written for the file called [name]. *)
Definition output_path (name : str) : str :=
  py "posts/" ++ get_slug_from_filename name ++ py ".html".

Definition record_keys : list str :=
  [py "title"; py "date"; py "slug"; py "description"].

(** The text of a JSON array of objects with string members, indented by
    two spaces: the brackets in column 0, the braces in column 2, one
    member a line in column 4, in the order of the record. *)
Definition index_member (kv : str * str) : str :=
  py "    " ++ Json.encode_basestring_ascii (fst kv) ++ py ": "
  ++ Json.encode_basestring_ascii (snd kv).

Definition index_object (p : post) : str :=
  py "  {" ++ [NL] ++ join (py "," ++ [NL]) (map index_member p)
  ++ [NL] ++ py "  }".

Definition index_text (posts : list post) : str :=
  py "[" ++ [NL] ++ join (py "," ++ [NL]) (map index_object posts)
  ++ [NL] ++ py "]".

(** What the pass for the file [f] leaves behind: the write of its page at
    the path of its slug, and a record with the four keys in their order
    whose slug is the slug of the file name. *)
Definition post_output (f : str * str) (o : event * post) : Prop :=
  (exists page, fst o = WriteFile (output_path (fst f)) page)
  /\ map fst (snd o) = record_keys
  /\ post_get (snd o) (py "slug") = Some (get_slug_from_filename (fst f)).

(** Sample posts. *)
Definition empty_block_post : str := text [py "---"; py "---"; py "body"].
Definition unterminated_post : str := text [py "---"; py "title: Hello"; py "---"].
Definition plain_post : str := text [py "# Heading"; py "---"; py "text"].
Definition unclosed_post : str := text [py "---"; py "title: Hello"; py "body"].
Definition sample_post : str :=
  text [py "---"; py "title: Hello"; py "just a note";
        py "link : http://example.org"; py "---"; py "body"; []].
Definition repeated_key_post : str :=
  text [py "---"; py "title: First"; py "date: 2025-01-01";
        py "title:  Second "; py "date : 2025-01-02"; py "---";
        py "body"].


Definition hello_post : str :=
  text [py "---"; py "title: Hello"; py "date: 2025-01-01";
        py "description: A test"; py "---"; py "Hello **world**"].

(** A stand-in for the markdown library in the worked examples: it knows
    the one body of the examples and wraps any other in a paragraph. *)
Definition toy_markdown (body : str) : str :=
  if decide (body = py "Hello **world**")
  then py "<p>Hello <strong>world</strong></p>"
  else py "<p>" ++ body ++ py "</p>".

Definition no_markdown_dir : list (str * str) :=
  [ (py "notes.txt", py "not a post"); (py "draft.markdown", hello_post) ].

Definition sample_dir : list (str * str) :=
  [ (py "2025-01-02-second.md", plain_post);
    (py "notes.txt", py "not a post");
    (py "2025-11-05-first-post.md", hello_post);
    (py "2025-01-10-third.md", sample_post) ].

End Statements.

Import Statements.

(** ** Vocabulary of the further statements *)

Module MoreStatements.

(** The text has a frontmatter block the pattern can match: its first
    line is the delimiter, and a line from the third on is the delimiter
    and is followed by at least one more line. *)
Definition has_frontmatter (content : str) : Prop :=
  exists b0 blk rest,
    split NL content = delimiter :: b0 :: blk ++ delimiter :: rest
    /\ rest <> [].

(** Newline or printable ASCII. *)
Definition ascii_text (s : str) : Prop :=
  Forall (fun c => c = NL \/ (32 <= c /\ c <= 126)) s.

(** A post with frontmatter whose first block line is the delimiter and
    whose body holds the delimiter again. *)
Definition nested_delimiters_post : str :=
  text [py "---"; py "---"; py "a: 1"; py "---"; py "x"; py "---"; py "y"].

(** The keys a post needs for an item of the list of all posts. *)
Definition list_keys : list str := [py "slug"; py "title"; py "date"].

(** The link to the page of the file called [name], as the fragments
    write it. *)
Definition page_link (name : str) : str :=
  py "<a href=" ++ [DQ] ++ py "/" ++ output_path name ++ [DQ].

(** The paths the run writes to, in order. *)
Fixpoint written_paths (events : list event) : list str :=
  match events with
  | [] => []
  | WriteFile path _ :: rest => path :: written_paths rest
  | MkDir _ :: rest => written_paths rest
  end.

(** A post whose frontmatter block has no line, followed by a body that
    holds a delimiter line. *)
Definition leading_empty_block_post : str :=
  text [py "---"; py "---"; py "a: 1"; py "---"; py "x"].

Definition repeated_key_metadata : dict :=
  <[py "date" := py "2025-01-02"]> (<[py "title" := py "Second"]> ∅).

End MoreStatements.

Import MoreStatements.

(** ** What a JSON text says *)

Module JsonText.

(** Text as the script can read it: code points up to U+10FFFF, none of
    them a high surrogate.  Decoding a file as UTF-8 yields no surrogate,
    and a file name holds at most low surrogates. *)
Definition python_char (c : N) : Prop :=
  c <= 1114111 /\ ~ (55296 <= c /\ c <= 56319).

Definition python_text (s : str) : Prop := Forall python_char s.

(** The value of a hexadecimal digit, in either case. *)
Definition hexval (c : char) : option N :=
  if (48 <=? c) && (c <=? 57) then Some (c - 48)
  else if (97 <=? c) && (c <=? 102) then Some (c - 87)
  else if (65 <=? c) && (c <=? 70) then Some (c - 55)
  else None.

Definition hex4val (h1 h2 h3 h4 : char) : option N :=
  d1 ← hexval h1; d2 ← hexval h2; d3 ← hexval h3; d4 ← hexval h4;
  Some (((d1 * 16 + d2) * 16 + d3) * 16 + d4).

(** The character that a two-character escape stands for. *)
Definition simple_escape (e : char) : option char :=
  if e =? DQ then Some DQ
  else if e =? BSL then Some BSL
  else if e =? 47 then Some 47
  else if e =? 98 then Some 8
  else if e =? 102 then Some 12
  else if e =? 110 then Some 10
  else if e =? 114 then Some 13
  else if e =? 116 then Some 9
  else None.

Definition high_surrogate (u : N) : bool := (55296 <=? u) && (u <=? 56319).
Definition low_surrogate (u : N) : bool := (56320 <=? u) && (u <=? 57343).

(** The code point of a surrogate pair. *)
Definition surrogate_pair (hi lo : N) : N :=
  65536 + (hi - 55296) * 1024 + (lo - 56320).

(** The string that a JSON string literal stands for (RFC 8259, section
    7), read from the character after the opening quotation mark up to the
    closing one, which must end the text: an unescaped character stands
    for itself and may not be a control character, an escape stands for
    one character, and a four-digit escape of a high surrogate followed by
    one of a low surrogate stands for the code point of the pair. *)
Fixpoint unquote (s : str) : option str :=
  match s with
  | [] => None
  | c :: s1 =>
      if c =? DQ then match s1 with [] => Some [] | _ :: _ => None end
      else if c =? BSL then
        match s1 with
        | [] => None
        | e :: s2 =>
            if e =? 117 then
              match s2 with
              | h1 :: h2 :: h3 :: h4 :: s3 =>
                  match hex4val h1 h2 h3 h4 with
                  | None => None
                  | Some u =>
                      if high_surrogate u then
                        match s3 with
                        | b :: e' :: g1 :: g2 :: g3 :: g4 :: s4 =>
                            if (b =? BSL) && (e' =? 117) then
                              match hex4val g1 g2 g3 g4 with
                              | None => None
                              | Some u2 =>
                                  if low_surrogate u2
                                  then cons (surrogate_pair u u2)
                                         <$> unquote s4
                                  else cons u <$> unquote s3
                              end
                            else cons u <$> unquote s3
                        | _ => cons u <$> unquote s3
                        end
                      else cons u <$> unquote s3
                  end
              | _ => None
              end
            else
              match simple_escape e with
              | Some x => cons x <$> unquote s2
              | None => None
              end
        end
      else if c <? 32 then None
      else cons c <$> unquote s1
  end.

(** [text] is a JSON string literal that stands for the string it
    returns. *)
Definition json_string (text : str) : option str :=
  match text with
  | c :: s => if c =? DQ then unquote s else None
  | [] => None
  end.

(** [m] is a member of a JSON object, on a line of its own in column 4:
    a string literal that stands for the key, a colon and a space, and a
    string literal that stands for the value. *)
Definition json_member (kv : str * str) (m : str) : Prop :=
  exists K V,
    m = py "    " ++ K ++ py ": " ++ V
    /\ json_string K = Some (fst kv) /\ json_string V = Some (snd kv).

(** [o] is the JSON object of the record [p]: braces in column 2 around
    the members of [p], in their order, one a line, with a comma after
    each but the last. *)
Definition json_object (p : post) (o : str) : Prop :=
  exists members,
    o = py "  {" ++ [NL] ++ join (py "," ++ [NL]) members ++ [NL] ++ py "  }"
    /\ Forall2 json_member p members.

(** [index] is the JSON array of the records [posts]: brackets in column
    0 around the objects of the records, in their order, with a comma
    after each but the last. *)
Definition json_index (index : str) (posts : list post) : Prop :=
  exists objects,
    index = py "[" ++ [NL] ++ join (py "," ++ [NL]) objects ++ [NL] ++ py "]"
    /\ Forall2 json_object posts objects.

(** A record of text: every key and every value is text as the script
    can read it. *)
Definition record_text (p : post) : Prop :=
  Forall (fun kv => python_text (fst kv) /\ python_text (snd kv)) p.

(** [P] holds of the [fuel] numbers from [n] on; a check by evaluation
    over a range of code points. *)
Fixpoint all_from (fuel : nat) (n : N) (P : N -> bool) : bool :=
  match fuel with
  | O => true
  | S f => P n && all_from f (N.succ n) P
  end.

(** Setting the ten bits [a] in the first high and in the first low
    surrogate adds [a] to it. *)
Definition surrogate_ok (a : N) : bool :=
  (N.lor 55296 a =? 55296 + a) && (N.lor 56320 a =? 56320 + a).

(** The last effect of a run. *)
Definition last_event (st : option state) : option event :=
  match st with
  | Some st => last (trace st)
  | None => None
  end.

(** The index of the sample directory. *)
Definition sample_index : str :=
  text [ py "[";
         py "  {";
         py "    " ++ q "title" ++ py ": " ++ q "Hello" ++ py ",";
         py "    " ++ q "date" ++ py ": " ++ q "2025-01-01" ++ py ",";
         py "    " ++ q "slug" ++ py ": " ++ q "first-post" ++ py ",";
         py "    " ++ q "description" ++ py ": " ++ q "A test";
         py "  },";
         py "  {";
         py "    " ++ q "title" ++ py ": " ++ q "Hello" ++ py ",";
         py "    " ++ q "date" ++ py ": " ++ q "" ++ py ",";
         py "    " ++ q "slug" ++ py ": " ++ q "third" ++ py ",";
         py "    " ++ q "description" ++ py ": " ++ q "";
         py "  },";
         py "  {";
         py "    " ++ q "title" ++ py ": " ++ q "Untitled" ++ py ",";
         py "    " ++ q "date" ++ py ": " ++ q "" ++ py ",";
         py "    " ++ q "slug" ++ py ": " ++ q "second" ++ py ",";
         py "    " ++ q "description" ++ py ": " ++ q "";
         py "  }";
         py "]" ].

End JsonText.

Import JsonText.

(** * The embedding on small inputs *)

Module Examples.

Example split_trailing_newline :
  split NL (text [py "a"; py "b"; []]) = [py "a"; py "b"; []].
Proof. reflexivity. Qed.

Example split_empty : split NL [] = [[]].
Proof. reflexivity. Qed.

Example split_max_value_with_colons :
  split_max COLON (py "url: http://example.org:80") 1
  = [py "url"; py " http://example.org:80"].
Proof. reflexivity. Qed.

Example split_max_date_prefix :
  split_max HYPHEN (py "2025-11-05-first-post") 3
  = [py "2025"; py "11"; py "05"; py "first-post"].
Proof. reflexivity. Qed.

Example strip_both_ends : strip (py "  a b " ++ [9; NL]) = py "a b".
Proof. reflexivity. Qed.

Example strip_no_break_space : strip [160; 97; 8203; 12288] = [97; 8203].
Proof. reflexivity. Qed.

Example replace_every_occurrence :
  replace (py "a.mdb.md.m") (py ".md") [] = py "ab.m".
Proof. reflexivity. Qed.

Example join_hyphen : join (py "-") [py "a"; py "b"; []] = py "a-b-".
Proof. reflexivity. Qed.

Example str_ltb_dates :
  str_ltb (py "2025-01-02-b.md") (py "2025-01-10-a.md") = true
  /\ str_ltb (py "a") (py "a-b") = true
  /\ str_ltb (py "b") (py "ab") = false.
Proof. repeat split. Qed.

Example re_match_sample :
  re_match sample_post
  = Some (text [py "title: Hello"; py "just a note";
                py "link : http://example.org"],
          text [py "body"; []]).
Proof. reflexivity. Qed.

Example re_match_lazy :
  re_match (text [py "---"; py "a: 1"; py "---"; py "x"; py "---"; py "y"])
  = Some (py "a: 1", text [py "x"; py "---"; py "y"]).
Proof. reflexivity. Qed.

Example re_match_first_line_of_block :
  re_match (text [py "---"; py "---"; py "a: 1"; py "---"; py "x"])
  = Some (text [py "---"; py "a: 1"], py "x").
Proof. reflexivity. Qed.

Example encode_escapes :
  Json.encode_basestring_ascii (py "a" ++ [DQ; BSL; NL; 233; 128512])
  = DQ :: py "a" ++ [BSL; DQ; BSL; BSL; BSL] ++ py "n"
       ++ [BSL] ++ py "u00e9" ++ [BSL] ++ py "ud83d" ++ [BSL] ++ py "ude00"
       ++ [DQ].
Proof. reflexivity. Qed.

Example dumps_one_post :
  Json.dumps
    (Json.JList
       [post_to_json (post_record (py "T") (py "D") (py "s") (py "d"))]) 2
  = text [ py "[";
           py "  {";
           py "    " ++ q "title" ++ py ": " ++ q "T" ++ py ",";
           py "    " ++ q "date" ++ py ": " ++ q "D" ++ py ",";
           py "    " ++ q "slug" ++ py ": " ++ q "s" ++ py ",";
           py "    " ++ q "description" ++ py ": " ++ q "d";
           py "  }";
           py "]" ].
Proof. reflexivity. Qed.

Example dumps_empty_containers :
  Json.dumps (Json.JList []) 2 = py "[]"
  /\ Json.dumps (Json.JDict []) 2 = py "{}".
Proof. split; reflexivity. Qed.

End Examples.

(** A decidable proposition on closed terms, by evaluation. *)
Ltac decide_by_computation :=
  lazymatch goal with
  | |- ?P => apply (bool_decide_unpack P); vm_compute; exact I
  end.

(** * Facts about the string operations *)

Module PyStrFacts.

Lemma startswith_spec (s p : str) :
  startswith s p = true <-> exists r, s = p ++ r.
Proof.
  revert s. induction p as [|a p IH]; intros s; simpl.
  - split; [intros _; by exists s | done].
  - destruct s as [|c s]; simpl.
    + split; [done | intros [r Hr]; discriminate].
    + rewrite andb_true_iff, IH, N.eqb_eq. split.
      * intros [-> [r ->]]. by exists r.
      * intros [r Hr]. injection Hr as -> ->. eauto.
Qed.

Lemma startswith_app (p r : str) : startswith (p ++ r) p = true.
Proof. apply startswith_spec. by exists r. Qed.

Lemma contains_spec (c : char) (s : str) : contains c s = true <-> c ∈ s.
Proof.
  induction s as [|d s IH]; simpl.
  - split; [done | by intros ?%elem_of_nil].
  - rewrite orb_true_iff, IH, N.eqb_eq, elem_of_cons.
    split; (intros [?|?]; [left; congruence | by right]).
Qed.

Lemma contains_false (c : char) (s : str) : contains c s = false <-> c ∉ s.
Proof.
  rewrite <- contains_spec. destruct (contains c s); naive_solver.
Qed.

(** *** [split] and [join] *)

Lemma split_cons_sep (sep : char) (s : str) :
  split sep (sep :: s) = [] :: split sep s.
Proof. simpl. by rewrite N.eqb_refl. Qed.

Lemma split_not_nil (sep : char) (s : str) : split sep s <> [].
Proof.
  induction s as [|c s IH]; simpl; [done|].
  destruct (c =? sep); [done|]. by destruct (split sep s).
Qed.

Lemma split_cons_other (sep c : char) (s : str) :
  c <> sep ->
  split sep (c :: s) =
    (c :: default [] (head (split sep s))) :: tail (split sep s).
Proof.
  intros Hc. simpl. apply N.eqb_neq in Hc as ->.
  pose proof (split_not_nil sep s). by destruct (split sep s).
Qed.

(** Cutting at a separator cuts the list of parts. *)
Lemma split_app (sep : char) (a b : str) :
  split sep (a ++ sep :: b) = split sep a ++ split sep b.
Proof.
  induction a as [|c a IH]; simpl.
  - by rewrite N.eqb_refl.
  - destruct (c =? sep); [by rewrite IH|].
    rewrite IH. pose proof (split_not_nil sep a).
    by destruct (split sep a).
Qed.

Lemma split_no_sep (sep : char) (s : str) : sep ∉ s -> split sep s = [s].
Proof.
  induction s as [|c s IH]; [done|].
  rewrite not_elem_of_cons. intros [Hc Hs]. simpl.
  assert ((c =? sep) = false) as -> by (apply N.eqb_neq; congruence).
  by rewrite IH.
Qed.

Lemma split_parts_no_sep (sep : char) (s p : str) :
  p ∈ split sep s -> sep ∉ p.
Proof.
  revert p. induction s as [|c s IH]; intros p; simpl.
  - rewrite list_elem_of_singleton. intros ->. apply not_elem_of_nil.
  - destruct (N.eqb_spec c sep) as [->|Hc].
    + rewrite elem_of_cons. intros [->|?]; [apply not_elem_of_nil | eauto].
    + pose proof (split_not_nil sep s).
      destruct (split sep s) as [|p0 ps]; [done|].
      rewrite elem_of_cons. intros [->|Hp].
      * rewrite not_elem_of_cons. split; [congruence|].
        apply IH. left.
      * apply IH. by right.
Qed.

Lemma join_cons (sep p : str) (ps : list str) :
  ps <> [] -> join sep (p :: ps) = p ++ sep ++ join sep ps.
Proof. by destruct ps. Qed.

Lemma join_app (sep : str) (l1 l2 : list str) :
  l1 <> [] -> l2 <> [] ->
  join sep (l1 ++ l2) = join sep l1 ++ sep ++ join sep l2.
Proof.
  intros H1 H2. induction l1 as [|p l1 IH]; [done|].
  destruct l1 as [|p' l1].
  - simpl. by destruct l2.
  - change ((p :: p' :: l1) ++ l2) with (p :: (p' :: l1) ++ l2).
    rewrite !join_cons by done. rewrite IH by done.
    by rewrite <- !app_assoc.
Qed.

(** Joining the parts with the separator gives the string back. *)
Lemma join_split (sep : char) (s : str) : join [sep] (split sep s) = s.
Proof.
  induction s as [|c s IH]; [done|]. simpl.
  pose proof (split_not_nil sep s) as Hne.
  destruct (N.eqb_spec c sep) as [->|Hc].
  - rewrite join_cons by done. simpl. by rewrite IH.
  - destruct (split sep s) as [|p ps]; [done|].
    destruct ps as [|p' ps]; simpl in *; by rewrite <- IH.
Qed.

(** Splitting a joined list of separator-free parts gives the parts back. *)
Lemma split_join (sep : char) (l : list str) :
  l <> [] -> Forall (fun p => sep ∉ p) l -> split sep (join [sep] l) = l.
Proof.
  intros Hne Hl. induction Hl as [|p l Hp Hl IH]; [done|].
  destruct l as [|p' l].
  - simpl. by apply split_no_sep.
  - rewrite join_cons by done.
    change ([sep] ++ join [sep] (p' :: l)) with (sep :: join [sep] (p' :: l)).
    rewrite split_app, split_no_sep by done. by rewrite IH.
Qed.

(** *** The first separator of a line *)

Lemma split_max_1 (sep : char) (line : str) :
  sep ∈ line ->
  exists a b, line = a ++ sep :: b /\ (sep ∉ a)
              /\ split_max sep line 1 = [a; b].
Proof.
  induction line as [|c line IH]; [by intros ?%elem_of_nil|].
  intros Hin. simpl. destruct (N.eqb_spec c sep) as [->|Hc].
  - exists [], line. split_and!; [done | apply not_elem_of_nil |].
    by destruct line.
  - apply elem_of_cons in Hin as [?|Hin]; [congruence|].
    destruct (IH Hin) as (a & b & -> & Ha & ->).
    exists (c :: a), b. split_and!; [done | | done].
    rewrite not_elem_of_cons. split; [congruence | done].
Qed.

Lemma first_sep_unique (sep : char) (a b a' b' : str) :
  a ++ sep :: b = a' ++ sep :: b' -> sep ∉ a -> sep ∉ a' ->
  a = a' /\ b = b'.
Proof.
  revert a'. induction a as [|c a IH]; intros [|c' a']; simpl.
  - intros [= ->]. done.
  - intros [= <- _] _ []. left.
  - intros [= -> _] []. left.
  - intros [= -> Heq]. rewrite !not_elem_of_cons. intros [_ Ha] [_ Ha'].
    destruct (IH _ Heq Ha Ha') as [-> ->]. done.
Qed.

(** *** The order on strings *)

Lemma str_ltb_irrefl (a : str) : str_ltb a a = false.
Proof.
  induction a as [|x a IH]; [done|]. simpl.
  by rewrite N.ltb_irrefl, N.eqb_refl, IH.
Qed.

Lemma str_ltb_trans (a b c : str) :
  str_ltb a b = true -> str_ltb b c = true -> str_ltb a c = true.
Proof.
  revert b c. induction a as [|x a IH]; intros [|y b] [|z c]; simpl; try done.
  rewrite !orb_true_iff, !andb_true_iff, !N.ltb_lt, !N.eqb_eq.
  intros [Hxy|[-> Hab]] [Hyz|[-> Hbc]].
  - left. lia.
  - by left.
  - by left.
  - right. eauto.
Qed.

Lemma str_ltb_total (a b : str) :
  str_ltb a b = true \/ a = b \/ str_ltb b a = true.
Proof.
  revert b. induction a as [|x a IH]; intros [|y b]; simpl; auto.
  rewrite !orb_true_iff, !andb_true_iff, !N.ltb_lt, !N.eqb_eq.
  destruct (N.lt_trichotomy x y) as [?|[->|?]]; [by auto | | by auto].
  destruct (IH b) as [?|[->|?]]; auto.
Qed.

Lemma str_ltb_asym (a b : str) :
  str_ltb a b = true -> str_ltb b a = false.
Proof.
  intros Hab. destruct (str_ltb b a) eqn:Hba; [|done].
  by rewrite <- (str_ltb_irrefl a), <- (str_ltb_trans _ _ _ Hab Hba).
Qed.

Lemma str_leb_antisym (a b : str) :
  str_leb a b = true -> str_leb b a = true -> a = b.
Proof.
  unfold str_leb. rewrite !negb_true_iff. intros Hba Hab.
  destruct (str_ltb_total a b) as [?|[?|?]]; congruence.
Qed.

End PyStrFacts.

(** * The frontmatter parser *)

Module FrontmatterFacts.

Import PyStrFacts.

Lemma lazy_until_eq (lit s : str) :
  lazy_until lit s =
    if startswith s lit then Some ([], drop (length lit) s)
    else match s with
         | [] => None
         | c :: s' =>
             match lazy_until lit s' with
             | Some (g1, g2) => Some (c :: g1, g2)
             | None => None
             end
         end.
Proof. by destruct s. Qed.

(** A match cuts the text into group 1, the literal and group 2. *)
Lemma lazy_until_sound (lit s g1 g2 : str) :
  lazy_until lit s = Some (g1, g2) -> s = g1 ++ lit ++ g2.
Proof.
  revert g1. induction s as [|c s IH]; intros g1; rewrite lazy_until_eq.
  - destruct lit as [|a lit]; simpl; [|done]. by intros [= <- <-].
  - destruct (startswith (c :: s) lit) eqn:Hp.
    + apply startswith_spec in Hp as [r Hr]. intros [= <- <-].
      rewrite Hr. by rewrite drop_app_length.
    + destruct (lazy_until lit s) as [[h1 h2]|]; [|done].
      intros [= <- <-]. simpl. f_equal. by apply IH.
Qed.

(** Group 1 is the shortest possible: when the literal does not start
    inside [block], the match of [block ++ lit ++ body] stops at [block]. *)
Lemma lazy_until_first (lit block body : str) :
  (forall p r, block = p ++ r -> r <> [] ->
               startswith (r ++ lit ++ body) lit = false) ->
  lazy_until lit (block ++ lit ++ body) = Some (block, body).
Proof.
  induction block as [|c block IH]; intros Hfirst; rewrite lazy_until_eq.
  - simpl. rewrite startswith_app. by rewrite drop_app_length.
  - rewrite (Hfirst [] (c :: block)) by done.
    simpl. rewrite IH; [done|].
    intros p r -> Hr. by apply (Hfirst (c :: p) r).
Qed.

Lemma re_match_sound (content fm body : str) :
  re_match content = Some (fm, body) ->
  content = delimiter ++ NL :: fm ++ closing ++ body.
Proof.
  unfold re_match.
  destruct (startswith content (delimiter ++ [NL])) eqn:Hp; [|done].
  apply startswith_spec in Hp as [r ->]. rewrite drop_app_length.
  intros ->%lazy_until_sound. by rewrite <- !app_assoc.
Qed.

(** In a matched text the first line is the delimiter, and the delimiter
    is a later line too. *)
Lemma re_match_lines (content fm body : str) :
  re_match content = Some (fm, body) ->
  split NL content = delimiter :: split NL fm ++ delimiter :: split NL body.
Proof.
  intros ->%re_match_sound. unfold closing.
  rewrite split_app.
  change (NL :: delimiter ++ [NL]) with ([NL] ++ delimiter ++ [NL]).
  rewrite <- !app_assoc. simpl.
  change (fm ++ NL :: delimiter ++ NL :: body)
    with (fm ++ NL :: (delimiter ++ NL :: body)).
  by rewrite !split_app.
Qed.

(** A text whose lines are the delimiter, a non-empty block without a
    delimiter line, the delimiter and at least one more line is matched,
    with the block as group 1 and the lines after as group 2. *)
Lemma re_match_block (content : str) (blk rest : list str) :
  split NL content = delimiter :: blk ++ delimiter :: rest ->
  delimiter ∉ blk -> blk <> [] -> rest <> [] ->
  re_match content = Some (join [NL] blk, join [NL] rest).
Proof.
  intros Hsplit Hnot Hblk Hrest.
  assert (Forall (fun p => NL ∉ p) blk) as Hfree.
  { apply Forall_forall. intros p Hp.
    apply (split_parts_no_sep NL content). rewrite Hsplit.
    right. apply elem_of_app. by left. }
  assert (content = (delimiter ++ [NL])
                    ++ join [NL] blk ++ closing ++ join [NL] rest) as ->.
  { rewrite <- (join_split NL content), Hsplit.
    rewrite join_cons by (by destruct blk).
    rewrite join_app, join_cons by done.
    unfold closing. by rewrite <- !app_assoc. }
  unfold re_match. rewrite startswith_app, drop_app_length.
  apply lazy_until_first. intros p r Hcut Hr.
  destruct (startswith _ closing) eqn:Hp; [exfalso|done].
  apply startswith_spec in Hp as [z Hz].
  destruct r as [|c r]; [done|]. injection Hz as -> Hz.
  apply (f_equal (split NL)) in Hz.
  change (r ++ closing ++ join [NL] rest)
    with (r ++ NL :: (delimiter ++ NL :: join [NL] rest)) in Hz.
  rewrite !split_app in Hz.
  apply (f_equal (split NL)) in Hcut.
  rewrite split_join, split_app in Hcut by done.
  apply Hnot. rewrite Hcut. apply elem_of_app. right.
  pose proof (split_not_nil NL r).
  destruct (split NL r) as [|h t]; [done|].
  injection Hz as -> _. left.
Qed.

(** *** The loop over the lines *)

Lemma parse_lines_cons (line : str) (rest : list str) (m : dict) :
  ((COLON ∉ line) /\ parse_lines (line :: rest) m = parse_lines rest m)
  \/ (exists a b, line = a ++ COLON :: b /\ (COLON ∉ a)
       /\ parse_lines (line :: rest) m
          = parse_lines rest (<[strip a := strip b]> m)).
Proof.
  simpl. destruct (contains COLON line) eqn:Hc.
  - right. apply contains_spec in Hc.
    destruct (split_max_1 _ _ Hc) as (a & b & Hline & Ha & ->). eauto.
  - left. by apply contains_false in Hc.
Qed.

Lemma not_has_key_no_colon (line key : str) :
  COLON ∉ line -> ~ has_key line key.
Proof.
  intros Hc (v & a & b & -> & _). apply Hc, elem_of_app. right. left.
Qed.

Lemma has_key_colon (a b key : str) :
  COLON ∉ a -> has_key (a ++ COLON :: b) key <-> key = strip a.
Proof.
  intros Ha. split.
  - intros (v & a' & b' & Heq & Ha' & -> & _).
    by destruct (first_sep_unique _ _ _ _ _ Heq Ha Ha') as [-> _].
  - intros ->. exists (strip b), a, b. done.
Qed.

(** The loop never raises: a line with a colon always splits in two. *)
Lemma parse_lines_total (lines : list str) (m : dict) :
  is_Some (parse_lines lines m).
Proof.
  revert m. induction lines as [|line rest IH]; intros m; [by eexists|].
  destruct (parse_lines_cons line rest m)
    as [[_ ->]|(a & b & _ & _ & ->)]; apply IH.
Qed.



(** Every binding of the result comes from a line, or was there before. *)
Lemma parse_lines_origin (lines : list str) (m m' : dict) (k v : str) :
  parse_lines lines m = Some m' -> m' !! k = Some v ->
  (exists line, line ∈ lines /\ key_value_line line k v) \/ m !! k = Some v.
Proof.
  revert m. induction lines as [|line rest IH]; intros m.
  - intros [= ->]. by right.
  - intros Hrun Hk.
    destruct (parse_lines_cons line rest m)
      as [[_ Heq]|(a & b & -> & Ha & Heq)]; rewrite Heq in Hrun.
    + destruct (IH _ Hrun Hk) as [(l & Hl & Hkv)|?]; [left|by right].
      exists l. split; [by right | done].
    + destruct (IH _ Hrun Hk) as [(l & Hl & Hkv)|Hins].
      * left. exists l. split; [by right | done].
      * destruct (decide (strip a = k)) as [<-|Hne].
        -- rewrite lookup_insert_eq in Hins. injection Hins as <-.
           left. exists (a ++ COLON :: b). split; [left|].
           exists a, b. done.
        -- rewrite lookup_insert_ne in Hins by done. by right.
Qed.

(** A key that is bound stays bound. *)
Lemma parse_lines_keeps (lines : list str) (m m' : dict) (k : str) :
  parse_lines lines m = Some m' -> is_Some (m !! k) -> is_Some (m' !! k).
Proof.
  revert m. induction lines as [|line rest IH]; intros m.
  - by intros [= ->].
  - intros Hrun Hk.
    destruct (parse_lines_cons line rest m)
      as [[_ Heq]|(a & b & _ & _ & Heq)]; rewrite Heq in Hrun.
    + eauto.
    + apply (IH _ Hrun). rewrite lookup_insert_is_Some. 
      destruct (decide (strip a = k)); auto.
Qed.

(** The key of every line with a colon is bound in the result. *)
Lemma parse_lines_binds (lines : list str) (m m' : dict) (line k : str) :
  parse_lines lines m = Some m' -> line ∈ lines -> has_key line k ->
  is_Some (m' !! k).
Proof.
  revert m. induction lines as [|l0 rest IH]; intros m Hrun Hin Hkey.
  - by apply elem_of_nil in Hin.
  - destruct (parse_lines_cons l0 rest m)
      as [[Hc Heq]|(a & b & -> & Ha & Heq)]; rewrite Heq in Hrun.
    + apply elem_of_cons in Hin as [->|Hin]; [|eauto].
      by destruct (not_has_key_no_colon _ k Hc).
    + apply elem_of_cons in Hin as [->|Hin]; [|eauto].
      apply has_key_colon in Hkey as ->; [|done].
      apply (parse_lines_keeps _ _ _ _ Hrun).
      rewrite lookup_insert_eq. by eexists.
Qed.

End FrontmatterFacts.

(** * The claims about [parse_frontmatter] *)

Module ParseFrontmatter.

Import PyStrFacts FrontmatterFacts.

(** On a text with a non-empty block and a line after the closing
    delimiter, the parser runs the loop on the lines of the block and
    returns the lines after the closing delimiter as the body. *)
Lemma parse_frontmatter_block (content : str) (blk rest : list str) :
  two_delimiters content blk rest -> blk <> [] -> rest <> [] ->
  exists metadata : dict,
    parse_lines blk ∅ = Some metadata
    /\ parse_frontmatter content = Some (metadata, join [NL] rest).
Proof.
  intros [Hsplit Hnot] Hblk Hrest.
  pose proof (re_match_block _ _ _ Hsplit Hnot Hblk Hrest) as Hm.
  destruct (parse_lines_total blk ∅) as [metadata Hrun].
  exists metadata. split; [done|].
  unfold parse_frontmatter. rewrite Hm.
  rewrite (re_match_sound _ _ _ Hm) at 1. rewrite startswith_app. simpl.
  rewrite split_join, Hrun; [done | done |].
  apply Forall_forall. intros p Hp.
  apply (split_parts_no_sep NL content). rewrite Hsplit.
  right. apply elem_of_app. by left.
Qed.

(** Where the parser does find the second delimiter: for every text whose
    lines are the delimiter, a block of at least one line none of which is
    the delimiter, the delimiter again and at least one more line (so the
    closing delimiter line ends with a newline), [parse_frontmatter]
    returns a mapping whose keys are exactly the trimmed keys of the lines
    of the block that hold a colon, each bound to the trimmed text after
    the first colon of such a line, and a body equal to everything after
    the second delimiter line. *)
Lemma parse_frontmatter_two_delimiters (content : str) (blk rest : list str) :
  two_delimiters content blk rest -> blk <> [] -> rest <> [] ->
  frontmatter_parsed content blk rest.
Proof.
  intros Htwo Hblk Hrest.
  destruct (parse_frontmatter_block _ _ _ Htwo Hblk Hrest)
    as (metadata & Hrun & Hparse).
  exists metadata. split_and!; [done | |].
  - intros k. split.
    + intros [v Hv].
      destruct (parse_lines_origin _ _ _ _ _ Hrun Hv)
        as [(line & Hin & Hkv)|Hempty].
      * exists line. split; [done | by exists v].
      * by rewrite lookup_empty in Hempty.
    + intros (line & Hin & Hkey). by eapply parse_lines_binds.
  - intros k v Hv.
    destruct (parse_lines_origin _ _ _ _ _ Hrun Hv) as [?|Hempty]; [done|].
    by rewrite lookup_empty in Hempty.
Qed.


(** C5: a text whose first line is not the delimiter, and a text none of
    whose later lines is the delimiter, come back unchanged with an empty
    mapping; the parser returns and does not raise. *)
Theorem parse_frontmatter_identity (content : str) :
  head (split NL content) <> Some delimiter
  \/ delimiter ∉ tail (split NL content) ->
  parse_frontmatter content = Some (∅, content).
Proof.
  intros Hno. unfold parse_frontmatter.
  destruct (startswith content delimiter); [|done]. simpl.
  destruct (re_match content) as [[fm body]|] eqn:Hm; [exfalso|done].
  apply re_match_lines in Hm. rewrite Hm in Hno. simpl in Hno.
  destruct Hno as [Hhead|Htail]; [done|].
  apply Htail, elem_of_app. right. left.
Qed.

Lemma parse_frontmatter_two_delimiters_witness :
  two_delimiters sample_post
    [py "title: Hello"; py "just a note"; py "link : http://example.org"]
    [py "body"; []]
  /\ frontmatter_parsed sample_post
       [py "title: Hello"; py "just a note"; py "link : http://example.org"]
       [py "body"; []].
Proof.
  assert (two_delimiters sample_post
            [py "title: Hello"; py "just a note";
             py "link : http://example.org"]
            [py "body"; []]) as Htwo.
  { split; [vm_compute; reflexivity | decide_by_computation]. }
  split; [exact Htwo|].
  apply (parse_frontmatter_two_delimiters _ _ _ Htwo); discriminate.
Defined.

(** C1: the parser does not find the second delimiter line of every text
    that has one.  Each of the three texts below begins with a delimiter
    line and has a later delimiter line, and on each the result is not the
    mapping of the smallest block with everything after the second
    delimiter line for the body.  The first has a block without lines and
    the second ends with its closing delimiter, with no newline after it:
    both come back whole with an empty mapping, where an empty mapping
    with the body [body], and the title [Hello] with an empty body, are
    due.  The third has a block without lines and a third delimiter line:
    the parser passes over the second delimiter line and takes the lines
    up to the third one for the block, where an empty mapping and
    everything after the second line are due. *)
Theorem parse_frontmatter_misses_second_delimiter :
  (two_delimiters empty_block_post [] [py "body"]
   /\ parse_frontmatter empty_block_post = Some (∅, empty_block_post)
   /\ ~ frontmatter_parsed empty_block_post [] [py "body"])
  /\ (two_delimiters unterminated_post [py "title: Hello"] []
      /\ parse_frontmatter unterminated_post = Some (∅, unterminated_post)
      /\ ~ frontmatter_parsed unterminated_post [py "title: Hello"] [])
  /\ (two_delimiters leading_empty_block_post []
        [py "a: 1"; py "---"; py "x"]
      /\ parse_frontmatter leading_empty_block_post
         = Some (<[py "a" := py "1"]> ∅, py "x")
      /\ ~ frontmatter_parsed leading_empty_block_post []
            [py "a: 1"; py "---"; py "x"]).
Proof.
  split_and!;
    first
      [ split; [vm_compute; reflexivity | decide_by_computation]
      | vm_compute; reflexivity
      | intros (metadata & Hparse & _); vm_compute in Hparse; discriminate ].
Qed.


Lemma parse_frontmatter_identity_witness :
  parse_frontmatter plain_post = Some (∅, plain_post)
  /\ parse_frontmatter unclosed_post = Some (∅, unclosed_post).
Proof.
  split; apply parse_frontmatter_identity.
  - left. vm_compute. discriminate.
  - right. decide_by_computation.
Defined.

End ParseFrontmatter.

(** * The slug and the page *)

Module SlugAndPage.

Import PyStrFacts.

(** *** Where the slug of the script is the slug of the specification *)

Lemma endswith_spec (s suffix : str) :
  endswith s suffix = true <-> exists stem, s = stem ++ suffix.
Proof.
  unfold endswith. rewrite startswith_spec. split.
  - intros [r Hr]. exists (rev r).
    apply (f_equal (@rev N)) in Hr.
    by rewrite rev_involutive, rev_app_distr, rev_involutive in Hr.
  - intros [stem ->]. exists (rev stem). by rewrite rev_app_distr.
Qed.

Lemma replace_from_skips (old new : str) (k : nat) (s : str) :
  (length s <= k)%nat -> replace_from old new k s = [].
Proof.
  revert k. induction s as [|c s IH]; intros k Hk; [done|].
  destruct k as [|k]; simpl in *; [lia|]. apply IH. lia.
Qed.

(** Nothing is removed from a string that does not hold [old]. *)
Lemma replace_absent (s old new : str) :
  (forall a b, s <> a ++ old ++ b) -> replace s old new = s.
Proof.
  unfold replace. induction s as [|c s IH]; intros Habs; [done|].
  cbn [replace_from].
  destruct (startswith (c :: s) old) eqn:Hp.
  - apply startswith_spec in Hp as [r Hr]. by destruct (Habs [] r).
  - f_equal. apply IH. intros a b ->. by apply (Habs (c :: a) b).
Qed.

(** When [old] occurs at the end of a string and nowhere else, removing
    every occurrence removes the suffix. *)
Lemma replace_suffix_only (stem old : str) :
  old <> [] ->
  (forall a b, stem ++ old = a ++ old ++ b -> b = []) ->
  replace (stem ++ old) old [] = stem.
Proof.
  intros Hold. unfold replace.
  induction stem as [|c stem IH]; intros Honly.
  - destruct old as [|c old]; [done|]. cbn [app replace_from].
    assert (startswith (c :: old) (c :: old) = true) as ->
      by (apply startswith_spec; exists []; by rewrite app_nil_r).
    simpl. apply replace_from_skips. lia.
  - cbn [app replace_from].
    destruct (startswith (c :: stem ++ old) old) eqn:Hp.
    + apply startswith_spec in Hp as [r Hr].
      pose proof (Honly [] r Hr) as ->. rewrite app_nil_r in Hr.
      apply (f_equal length) in Hr. simpl in Hr.
      rewrite length_app in Hr. lia.
    + f_equal. apply IH. intros a b Hab.
      apply (Honly (c :: a) b). simpl. by rewrite Hab.
Qed.

(** The script and the specification agree on every file name in which
    the extension occurs at the end only, or not at all. *)
Lemma get_slug_from_filename_agrees (filename : str) :
  (forall a b, filename = a ++ py ".md" ++ b -> b = []) ->
  get_slug_from_filename filename = slug_spec filename.
Proof.
  intros Honly. unfold get_slug_from_filename, slug_spec.
  destruct (endswith filename (py ".md")) eqn:Hend.
  - apply endswith_spec in Hend as [stem ->].
    rewrite replace_suffix_only by done.
    rewrite length_app. change (length (py ".md")) with 3%nat.
    replace (length stem + 3 - 3)%nat with (length stem) by lia.
    by rewrite take_app_length.
  - rewrite replace_absent; [done|].
    intros a b Hab. pose proof (Honly a b Hab) as ->.
    assert (endswith filename (py ".md") = true); [|congruence].
    apply endswith_spec. exists a. by rewrite app_nil_r in Hab.
Qed.

(** C2: the two sample file names give the slugs that are claimed, but a
    file name that holds the extension a second time, inside its stem,
    loses it there as well: [replace] removes every occurrence, where the
    specification strips the suffix only. *)
Theorem get_slug_from_filename_samples :
  get_slug_from_filename (py "2025-11-05-first-post.md") = py "first-post"
  /\ get_slug_from_filename (py "no-date-prefix.md") = py "no-date-prefix"
  /\ get_slug_from_filename (py "2025-11-05-why.md-files-rock.md")
     = py "why-files-rock"
  /\ slug_spec (py "2025-11-05-why.md-files-rock.md")
     = py "why.md-files-rock".
Proof. split_and!; reflexivity. Qed.

(** C9: the slug plays no part in the page. *)
Theorem generate_html_file_ignores_slug (title date body_html slug slug' : str) :
  generate_html_file title date body_html slug
  = generate_html_file title date body_html slug'.
Proof. unfold generate_html_file. reflexivity. Qed.

Lemma is_infix_spec (needle hay : str) :
  is_infix needle hay = true <-> occurs_in needle hay.
Proof.
  induction hay as [|c hay IH]; simpl.
  - rewrite orb_false_r, startswith_spec. split.
    + intros [r Hr]. by exists [], r.
    + intros (l & r & Hlr). symmetry in Hlr.
      apply app_eq_nil in Hlr as [-> Hr]. by exists r.
  - rewrite orb_true_iff, IH, startswith_spec. split.
    + intros [[r Hr]|(l & r & ->)]; [by exists [], r|].
      by exists (c :: l), r.
    + intros ([|c' l] & r & Hlr); [left; by exists r|].
      right. injection Hlr as -> ->. by exists l, r.
Qed.

Lemma occurs_in_middle (l needle r : str) : occurs_in needle (l ++ needle ++ r).
Proof. by exists l, r. Qed.

Lemma occurs_in_app_l (needle a b : str) :
  occurs_in needle a -> occurs_in needle (a ++ b).
Proof. intros (l & r & ->). exists l, (r ++ b). by rewrite <- !app_assoc. Qed.

Lemma occurs_in_app_r (needle a b : str) :
  occurs_in needle b -> occurs_in needle (a ++ b).
Proof. intros (l & r & ->). exists (a ++ l), r. by rewrite <- !app_assoc. Qed.

(** The pieces of the template that surround the interpolated values. *)
Lemma html_before_title_ends :
  exists m,
    html_before_title = py "<!DOCTYPE html>" ++ m ++ py "<title>".
Proof.
  exists (take (length html_before_title - 22) (drop 15 html_before_title)).
  reflexivity.
Qed.

Lemma html_before_heading_ends :
  exists m,
    html_before_heading
    = py " - Jack Wittmayer</title>" ++ m ++ article_open
      ++ ([NL] ++ py "                ") ++ py "<h1>".
Proof.
  exists (take (length html_before_heading - 73) (drop 25 html_before_heading)).
  reflexivity.
Qed.

Lemma html_before_date_ends :
  html_before_date
  = py "</h1>" ++ ([NL] ++ py "                ") ++ date_open.
Proof. reflexivity. Qed.

Lemma html_before_body_start :
  exists m, html_before_body = py "</p>" ++ m.
Proof. by eexists. Qed.

Lemma html_after_body_ends :
  exists r,
    html_after_body
    = ([NL] ++ py "            ") ++ article_close ++ r ++ py "</html>".
Proof.
  exists (take (length html_after_body - 30) (drop 23 html_after_body)).
  reflexivity.
Qed.

(** The page, cut at the places the statements look at. *)
Lemma generate_html_file_segments (title date body_html slug : str) :
  exists m0 m1 m2 m3 m4 r,
    generate_html_file title date body_html slug
    = py "<!DOCTYPE html>" ++ m0
      ++ (py "<title>" ++ title ++ py " - Jack Wittmayer</title>") ++ m1
      ++ article_open
      ++ (m2 ++ (py "<h1>" ++ title ++ py "</h1>") ++ m2
          ++ (date_open ++ date ++ py "</p>") ++ m3 ++ body_html ++ m4)
      ++ article_close ++ r ++ py "</html>".
Proof.
  unfold generate_html_file.
  destruct html_before_title_ends as [m0 ->].
  destruct html_before_heading_ends as [m1 ->].
  rewrite html_before_date_ends.
  destruct html_before_body_start as [m3 ->].
  destruct html_after_body_ends as [r ->].
  exists m0, m1, ([NL] ++ py "                "), m3,
    ([NL] ++ py "            "), r.
  by rewrite <- !app_assoc.
Qed.

Lemma endswith_app_r (a b suffix : str) :
  endswith b suffix = true -> endswith (a ++ b) suffix = true.
Proof.
  unfold endswith. rewrite rev_app_distr, !startswith_spec.
  intros [r ->]. exists (r ++ rev a). by rewrite <- app_assoc.
Qed.

Lemma occurs_in_refl (s : str) : occurs_in s s.
Proof. exists [], []. by rewrite app_nil_r. Qed.

Lemma page_shows_generate_html_file (title date body_html slug : str) :
  page_shows title date body_html
    (generate_html_file title date body_html slug).
Proof.
  destruct (generate_html_file_segments title date body_html slug)
    as (m0 & m1 & m2 & m3 & m4 & r & ->).
  unfold page_shows. split_and!.
  - apply startswith_app.
  - do 8 apply endswith_app_r. reflexivity.
  - do 2 apply occurs_in_app_r. apply occurs_in_app_l, occurs_in_refl.
  - do 5 apply occurs_in_app_r. apply occurs_in_app_l, occurs_in_app_r.
    apply occurs_in_app_l, occurs_in_refl.
  - do 5 apply occurs_in_app_r. apply occurs_in_app_l.
    do 3 apply occurs_in_app_r. apply occurs_in_app_l, occurs_in_refl.
  - exists (py "<!DOCTYPE html>" ++ m0
            ++ (py "<title>" ++ title ++ py " - Jack Wittmayer</title>")
            ++ m1).
    exists (m2 ++ (py "<h1>" ++ title ++ py "</h1>") ++ m2
            ++ (date_open ++ date ++ py "</p>") ++ m3 ++ body_html ++ m4).
    exists (r ++ py "</html>").
    split; [rewrite <- !app_assoc; reflexivity|].
    do 5 apply occurs_in_app_r. apply occurs_in_app_l, occurs_in_refl.
Qed.

(** C6, as amended: the renderer is a function of its arguments that
    always returns a whole HTML document, with the title in the document
    title and in a heading, the date in the date paragraph and the rendered
    body inside the article; the slug is accepted and not interpolated,
    so the page is the same for every slug. *)
Theorem generate_html_file_page (title date body_html slug : str) :
  page_shows title date body_html
    (generate_html_file title date body_html slug)
  /\ forall slug',
       generate_html_file title date body_html slug'
       = generate_html_file title date body_html slug.
Proof. split; [apply page_shows_generate_html_file | reflexivity]. Qed.


(** C6, as stated, fails: no page holds the slug it was given, unless
    the slug happens to occur in the template or in the other values. *)
Lemma generate_html_file_counterexample :
  is_infix (py "first-post")
    (generate_html_file (py "Hello") (py "2025-01-01") (py "<p>Hi</p>")
       (py "first-post")) = false
  /\ ~ interpolates_all_four.
Proof.
  assert (is_infix (py "first-post")
            (generate_html_file (py "Hello") (py "2025-01-01")
               (py "<p>Hi</p>") (py "first-post")) = false) as Hno
    by (vm_compute; reflexivity).
  split; [exact Hno|].
  intros Hall.
  destruct (Hall (py "Hello") (py "2025-01-01") (py "<p>Hi</p>")
              (py "first-post")) as (_ & _ & _ & Hslug).
  apply is_infix_spec in Hslug. congruence.
Qed.

End SlugAndPage.

(** * The index file *)

Module IndexFacts.

Import Json PyStrFacts.

Lemma iterencode_list (indent level : nat) (items : list json) :
  items <> [] ->
  iterencode indent level (JList items)
  = py "[" ++ newline_indent indent (S level)
    ++ join (py "," ++ newline_indent indent (S level))
            (map (iterencode indent (S level)) items)
    ++ newline_indent indent level ++ py "]".
Proof. by destruct items. Qed.

Lemma iterencode_dict (indent level : nat) (items : list (str * json)) :
  items <> [] ->
  iterencode indent level (JDict items)
  = py "{" ++ newline_indent indent (S level)
    ++ join (py "," ++ newline_indent indent (S level))
            (map (fun kv => encode_basestring_ascii (fst kv) ++ py ": "
                            ++ iterencode indent (S level) (snd kv))
                 items)
    ++ newline_indent indent level ++ py "}".
Proof. by destruct items. Qed.

(** An indentation after every separator and before the first part is an
    indentation in front of every part. *)
Lemma join_indent (ind sep : str) (l : list str) :
  l <> [] ->
  ind ++ join (sep ++ ind) l = join sep (map (app ind) l).
Proof.
  induction l as [|p l IH]; [done|]. intros _.
  destruct l as [|p' l]; [done|].
  rewrite join_cons by done.
  change (map (app ind) (p :: p' :: l))
    with ((ind ++ p) :: map (app ind) (p' :: l)).
  rewrite (join_cons sep (ind ++ p)) by (simpl; discriminate).
  rewrite <- IH by done.
  by rewrite <- !app_assoc.
Qed.

Lemma index_object_eq (p : post) :
  p <> [] -> py "  " ++ iterencode 2 1 (post_to_json p) = index_object p.
Proof.
  intros Hp. unfold post_to_json, index_object.
  rewrite iterencode_dict by (by destruct p).
  rewrite map_map.
  assert (map index_member p
          = map (app (py "    "))
              (map (fun kv : list N * list N =>
                      encode_basestring_ascii (fst kv) ++ py ": "
                      ++ encode_basestring_ascii (snd kv)) p)) as ->
    by (by rewrite map_map).
  rewrite <- join_indent by (by destruct p).
  change (newline_indent 2 2) with ([NL] ++ py "    ").
  change (newline_indent 2 1) with ([NL] ++ py "  ").
  rewrite <- !app_assoc. reflexivity.
Qed.

Lemma dumps_index (posts : list post) :
  posts <> [] -> Forall (fun p => p <> []) posts ->
  dumps (JList (map post_to_json posts)) 2 = index_text posts.
Proof.
  intros Hne Hall. unfold dumps, index_text.
  rewrite iterencode_list by (by destruct posts).
  assert (map index_object posts
          = map (app (py "  ")) (map (iterencode 2 1) (map post_to_json posts)))
    as ->.
  { rewrite !map_map. apply map_ext_Forall.
    eapply Forall_impl; [exact Hall|].
    intros p Hp. symmetry. by apply index_object_eq. }
  rewrite <- join_indent by (by destruct posts).
  change (newline_indent 2 1) with ([NL] ++ py "  ").
  change (newline_indent 2 0) with [NL].
  rewrite <- !app_assoc. reflexivity.
Qed.

End IndexFacts.

(** * The run *)

Module BuildFacts.

Import PyStrFacts FrontmatterFacts SlugAndPage IndexFacts.

(** *** The order of processing *)

#[local] Instance name_ge_total : Total name_ge.
Proof.
  intros a b. unfold name_ge, str_leb.
  destruct (str_ltb (fst a) (fst b)) eqn:Hab; [right|by left].
  by rewrite (str_ltb_asym _ _ Hab).
Qed.

#[local] Instance name_ge_trans : Transitive name_ge.
Proof.
  intros a b c. unfold name_ge, str_leb.
  destruct (str_ltb (fst a) (fst b)) eqn:Hab; [done|].
  destruct (str_ltb (fst b) (fst c)) eqn:Hbc; [done|].
  destruct (str_ltb (fst a) (fst c)) eqn:Hac; [|done].
  intros _ _. destruct (str_ltb_total (fst a) (fst b)) as [?|[Heq|Hba]].
  - congruence.
  - rewrite Heq in Hac. congruence.
  - pose proof (str_ltb_trans _ _ _ Hba Hac). congruence.
Qed.

Lemma name_ge_gt (a b : str * str) :
  name_ge a b -> fst a <> fst b -> name_gt a b.
Proof.
  unfold name_ge, name_gt, str_leb. intros Hge Hne.
  destruct (str_ltb_total (fst b) (fst a)) as [?|[?|Hab]]; [done|done|].
  by rewrite Hab in Hge.
Qed.

Lemma StronglySorted_strict (l : list (str * str)) :
  StronglySorted name_ge l -> NoDup (map fst l) -> StronglySorted name_gt l.
Proof.
  induction 1 as [|a l Hl IH Ha]; intros Hnd; constructor.
  - apply IH. by apply NoDup_cons in Hnd as [_ ?].
  - apply NoDup_cons in Hnd as [Hnotin _].
    apply Forall_forall. intros y Hy. apply name_ge_gt.
    + rewrite Forall_forall in Ha. by apply Ha.
    + intros Heq. apply Hnotin. rewrite Heq.
      by apply (list_elem_of_fmap_2 fst).
Qed.

Lemma sorted_reverse_perm (files : list (str * str)) :
  sorted_reverse files ≡ₚ files.
Proof. apply merge_sort_Permutation. Qed.

(** Files with distinct names come out in strictly descending order. *)
Lemma sorted_reverse_strict (files : list (str * str)) :
  NoDup (map fst files) -> StronglySorted name_gt (sorted_reverse files).
Proof.
  intros Hnd. apply StronglySorted_strict.
  - apply (StronglySorted_merge_sort name_ge).
  - change (NoDup (fst <$> sorted_reverse files)).
    by rewrite sorted_reverse_perm.
Qed.

Lemma glob_md_NoDup (posts_dir : list (str * str)) :
  NoDup (map fst posts_dir) -> NoDup (map fst (glob_md posts_dir)).
Proof.
  intros Hnd. apply (sublist_NoDup _ _ Hnd).
  apply (fmap_sublist fst), sublist_filter.
Qed.

(** *** One pass of the loop *)

Section WithMarkdown.

Variable markdown : str -> str.

Lemma parse_frontmatter_total (content : str) :
  is_Some (parse_frontmatter content).
Proof.
  unfold parse_frontmatter.
  destruct (startswith content delimiter); [|by eexists]. simpl.
  destruct (re_match content) as [[fm body]|]; [|by eexists].
  destruct (parse_lines_total (split NL fm) ∅) as [metadata ->].
  by eexists.
Qed.

Lemma build_one_eq (st : state) (name content : str)
    (metadata : dict) (body : str) :
  parse_frontmatter content = Some (metadata, body) ->
  build_one markdown st (name, content)
  = let title := default (py "Untitled") (metadata !! py "title") in
    let date := default [] (metadata !! py "date") in
    let description := default [] (metadata !! py "description") in
    let slug := get_slug_from_filename name in
    Some (State
            (trace st
             ++ [WriteFile (output_path name)
                   (generate_html_file title date (markdown body) slug)])
            (posts_list st ++ [post_record title date slug description])).
Proof. intros Hparse. unfold build_one. by rewrite Hparse. Qed.

(** A pass adds one write and one record to whatever came before. *)
Lemma build_one_output (st : state) (f : str * str) :
  exists o : event * post,
    post_output f o
    /\ build_one markdown st f
       = Some (State (trace st ++ [fst o]) (posts_list st ++ [snd o])).
Proof.
  destruct f as [name content].
  destruct (parse_frontmatter_total content) as [[metadata body] Hparse].
  rewrite (build_one_eq _ _ _ _ _ Hparse). cbv zeta.
  eexists (_, _). split; [|reflexivity].
  split_and!; [by eexists | reflexivity | reflexivity].
Qed.

Lemma build_loop_outputs (files : list (str * str)) (st : state) :
  exists outs : list (event * post),
    Forall2 post_output files outs
    /\ build_loop markdown files st
       = Some (State (trace st ++ map fst outs)
                     (posts_list st ++ map snd outs)).
Proof.
  revert st. induction files as [|f files IH]; intros st.
  - exists []. split; [constructor|]. simpl. rewrite !app_nil_r.
    by destruct st.
  - destruct (build_one_output st f) as (o & Ho & Hone).
    destruct (IH (State (trace st ++ [fst o]) (posts_list st ++ [snd o])))
      as (outs & Houts & Hloop).
    exists (o :: outs). split; [by constructor|].
    simpl. rewrite Hone. simpl. rewrite Hloop. simpl.
    by rewrite <- !app_assoc.
Qed.

(** The run always returns: the directory is created, each file adds its
    write and its record, and the index is written last when there is a
    record. *)
Lemma build_posts_outputs (posts_dir : list (str * str)) :
  exists outs : list (event * post),
    Forall2 post_output (sorted_reverse (glob_md posts_dir)) outs
    /\ build_posts markdown posts_dir
       = Some (State
                 (MkDir (py "posts") :: map fst outs
                  ++ (if decide (map snd outs = []) then []
                      else [WriteFile (py "posts.json")
                              (Json.dumps
                                 (Json.JList (map post_to_json (map snd outs)))
                                 2)]))
                 (map snd outs)).
Proof.
  destruct (build_loop_outputs (sorted_reverse (glob_md posts_dir))
              (State [MkDir (py "posts")] [])) as (outs & Houts & Hloop).
  exists outs. split; [done|].
  unfold build_posts. rewrite Hloop. simpl.
  destruct (decide (map snd outs = [])) as [Hnil|Hne]; simpl.
  - by rewrite app_nil_r.
  - reflexivity.
Qed.

Lemma post_output_not_nil (f : str * str) (o : event * post) :
  post_output f o -> snd o <> [].
Proof. intros (_ & Hkeys & _) Hnil. by rewrite Hnil in Hkeys. Qed.

Lemma post_output_not_index (f : str * str) (o : event * post) (c : str) :
  post_output f o -> fst o <> WriteFile (py "posts.json") c.
Proof. by intros ([page ->] & _) [= Hpath _]. Qed.

Lemma post_outputs_records (files : list (str * str))
    (outs : list (event * post)) :
  Forall2 post_output files outs ->
  Forall (fun p => p <> []) (map snd outs).
Proof.
  induction 1 as [|f o files outs Ho _ IH]; simpl; constructor; [|done].
  by eapply post_output_not_nil.
Qed.

Lemma post_outputs_not_index (files : list (str * str))
    (outs : list (event * post)) (c : str) :
  Forall2 post_output files outs ->
  WriteFile (py "posts.json") c ∉ map fst outs.
Proof.
  induction 1 as [|f o files outs Ho _ IH]; simpl.
  - apply not_elem_of_nil.
  - apply not_elem_of_cons. split; [|done].
    intros Heq. by eapply post_output_not_index.
Qed.

(** The order of processing and the text of the index: when the
    directory holds at least one markdown file, and its file names are
    distinct, the files are processed in strictly descending order of
    their names, and the last effect of the run is the write of the index,
    whose text is laid out as [index_text] has it. *)
Lemma build_posts_index_order (posts_dir : list (str * str)) :
  glob_md posts_dir <> [] -> NoDup (map fst posts_dir) ->
  exists (processed : list (str * str)) (outs : list (event * post)),
    processed ≡ₚ glob_md posts_dir
    /\ StronglySorted name_gt processed
    /\ Forall2 post_output processed outs
    /\ build_posts markdown posts_dir
       = Some (State
                 (MkDir (py "posts") :: map fst outs
                  ++ [WriteFile (py "posts.json")
                        (index_text (map snd outs))])
                 (map snd outs)).
Proof.
  intros Hne Hnd.
  destruct (build_posts_outputs posts_dir) as (outs & Houts & Hrun).
  exists (sorted_reverse (glob_md posts_dir)), outs.
  split_and!; [apply sorted_reverse_perm | | done |].
  - by apply sorted_reverse_strict, glob_md_NoDup.
  - rewrite Hrun.
    assert (map snd outs <> []) as Hposts.
    { intros Hnil. apply Hne.
      apply (f_equal length) in Hnil. rewrite length_map in Hnil.
      apply Forall2_length in Houts. rewrite <- Houts in Hnil.
      rewrite (Permutation_length (sorted_reverse_perm _)) in Hnil.
      by apply length_zero_iff_nil. }
    destruct (decide (map snd outs = [])); [done|].
    rewrite dumps_index; [done | done |].
    by eapply post_outputs_records.
Qed.

(** C4: the run returns; the index file is among its writes exactly when
    the list of records is not empty; and when no file of the directory is
    a markdown file the only effect is the creation of the output
    directory: no page and no index is written. *)
Theorem build_posts_index_iff (posts_dir : list (str * str)) :
  exists st : state,
    build_posts markdown posts_dir = Some st
    /\ ((exists content, WriteFile (py "posts.json") content ∈ trace st)
        <-> posts_list st <> [])
    /\ (glob_md posts_dir = [] ->
        trace st = [MkDir (py "posts")] /\ posts_list st = []).
Proof.
  destruct (build_posts_outputs posts_dir) as (outs & Houts & Hrun).
  eexists. split; [exact Hrun|]. simpl. split.
  - destruct (decide (map snd outs = [])) as [Hnil|Hposts].
    + rewrite app_nil_r. split; [|done]. intros [c Hc].
      apply elem_of_cons in Hc as [?|Hc]; [done|].
      by destruct (post_outputs_not_index _ _ c Houts).
    + split; [done|]. intros _. eexists.
      right. apply elem_of_app. right. left.
  - intros Hglob. rewrite Hglob in Houts.
    change (sorted_reverse []) with (@nil (list N * list N)) in Houts.
    apply Forall2_nil_inv_l in Houts as ->. done.
Qed.

(** C8: whatever the file, the pass writes a page that shows a title, a
    date and the rendered body, and appends a record with the same title
    and date and a description.  A title that the frontmatter lacks is
    [Untitled]: the page has it in its document title and in its heading,
    and the record has it as its title.  A date that it lacks is empty: the
    date paragraph of the page is empty, and so is the date of the record.
    A description that it lacks is empty in the record.  The page is made
    of the title, the date, the rendered body and the slug alone: no
    description reaches it, present or not. *)
Theorem build_one_defaults (st : state) (name content : str)
    (metadata : dict) (body : str) :
  parse_frontmatter content = Some (metadata, body) ->
  exists (title date description page : str) (p : post),
    build_one markdown st (name, content)
    = Some (State (trace st ++ [WriteFile (output_path name) page])
                  (posts_list st ++ [p]))
    /\ page_shows title date (markdown body) page
    /\ page = generate_html_file title date (markdown body)
                (get_slug_from_filename name)
    /\ p = post_record title date (get_slug_from_filename name) description
    /\ (metadata !! py "title" = None ->
        title = py "Untitled"
        /\ occurs_in (py "<title>Untitled - Jack Wittmayer</title>") page
        /\ occurs_in (py "<h1>Untitled</h1>") page
        /\ post_get p (py "title") = Some (py "Untitled"))
    /\ (metadata !! py "date" = None ->
        date = []
        /\ occurs_in (date_open ++ py "</p>") page
        /\ post_get p (py "date") = Some [])
    /\ (metadata !! py "description" = None ->
        description = []
        /\ post_get p (py "description") = Some []).
Proof.
  intros Hparse. rewrite (build_one_eq _ _ _ _ _ Hparse). cbv zeta.
  eexists _, _, _, _, _. split; [reflexivity|].
  pose proof (page_shows_generate_html_file
                (default (py "Untitled") (metadata !! py "title"))
                (default [] (metadata !! py "date"))
                (markdown body) (get_slug_from_filename name)) as Hpage.
  split; [exact Hpage|]. split; [reflexivity|]. split; [reflexivity|].
  destruct Hpage as (_ & _ & Htitle & Hh1 & Hdate & _).
  split_and!.
  - intros Hnone. rewrite Hnone in *. done.
  - intros Hnone. rewrite Hnone in *. done.
  - intros Hnone. rewrite Hnone. done.
Qed.



End WithMarkdown.
Lemma build_posts_index_order_witness :
  glob_md sample_dir <> []
  /\ NoDup (map fst sample_dir)
  /\ map fst (sorted_reverse (glob_md sample_dir))
     = [py "2025-11-05-first-post.md"; py "2025-01-10-third.md";
        py "2025-01-02-second.md"]
  /\ exists (processed : list (str * str)) (outs : list (event * post)),
       processed ≡ₚ glob_md sample_dir
       /\ StronglySorted name_gt processed
       /\ Forall2 post_output processed outs
       /\ build_posts toy_markdown sample_dir
          = Some (State
                    (MkDir (py "posts") :: map fst outs
                     ++ [WriteFile (py "posts.json")
                           (index_text (map snd outs))])
                    (map snd outs)).
Proof.
  assert (glob_md sample_dir <> []) as Hne by (vm_compute; discriminate).
  assert (NoDup (map fst sample_dir)) as Hnd by decide_by_computation.
  split_and!; [exact Hne | exact Hnd | vm_compute; reflexivity |].
  exact (build_posts_index_order toy_markdown sample_dir Hne Hnd).
Defined.

Lemma build_posts_index_iff_witness :
  glob_md no_markdown_dir = []
  /\ build_posts toy_markdown no_markdown_dir
     = Some (State [MkDir (py "posts")] []).
Proof.
  assert (glob_md no_markdown_dir = []) as Hglob by reflexivity.
  split; [exact Hglob|].
  destruct (build_posts_index_iff toy_markdown no_markdown_dir)
    as ([tr ps] & -> & _ & Hempty).
  destruct (Hempty Hglob) as [Htrace Hposts]. simpl in Htrace, Hposts.
  by rewrite Htrace, Hposts.
Defined.

Lemma build_one_defaults_witness :
  parse_frontmatter plain_post = Some (∅, plain_post)
  /\ exists page : str,
       build_one toy_markdown (State [] [])
         (py "2025-01-02-second.md", plain_post)
       = Some (State [WriteFile (py "posts/second.html") page]
                     [post_record (py "Untitled") [] (py "second") []])
       /\ page_shows (py "Untitled") [] (toy_markdown plain_post) page
       /\ occurs_in (py "<title>Untitled - Jack Wittmayer</title>") page
       /\ occurs_in (py "<h1>Untitled</h1>") page
       /\ occurs_in (date_open ++ py "</p>") page.
Proof.
  assert (parse_frontmatter plain_post = Some (∅, plain_post)) as Hparse
    by (vm_compute; reflexivity).
  split; [exact Hparse|].
  destruct (build_one_defaults toy_markdown (State [] [])
              (py "2025-01-02-second.md") plain_post ∅ plain_post Hparse)
    as (title & date & description & page & p
        & Hrun & Hshows & _ & -> & Ht & Hd & Hds).
  destruct (Ht eq_refl) as (-> & Htitle & Hh1 & _).
  destruct (Hd eq_refl) as (-> & Hdate & _).
  destruct (Hds eq_refl) as (-> & _).
  exists page. split_and!; [exact Hrun | exact Hshows | exact Htitle
                           | exact Hh1 | exact Hdate].
Defined.


End BuildFacts.

(** * More on the frontmatter parser *)

Module ParserExtras.

Import PyStrFacts FrontmatterFacts.

(** *** [strip] *)

Lemma lstrip_suffix (s : str) : exists pre, s = pre ++ lstrip s.
Proof.
  induction s as [|c s [pre IH]]; [by exists []|]. simpl.
  destruct (isspace c); [|by exists []].
  exists (c :: pre). simpl. by rewrite <- IH.
Qed.

Lemma lstrip_head (s : str) (c : char) (t : str) :
  lstrip s = c :: t -> isspace c = false.
Proof.
  induction s as [|d s IH]; [done|]. simpl.
  destruct (isspace d) eqn:Hd; [done|]. by intros [= <- _].
Qed.

Lemma lstrip_fix (s : str) :
  (forall c t, s = c :: t -> isspace c = false) -> lstrip s = s.
Proof.
  destruct s as [|c s]; [done|]. intros Hhead. simpl.
  by rewrite (Hhead c s).
Qed.

Lemma lstrip_idem (s : str) : lstrip (lstrip s) = lstrip s.
Proof. apply lstrip_fix. intros c t. apply lstrip_head. Qed.

Lemma rstrip_prefix (s : str) : exists post, s = rstrip s ++ post.
Proof.
  unfold rstrip. destruct (lstrip_suffix (rev s)) as [pre Hpre].
  exists (rev pre). apply (f_equal (@rev N)) in Hpre.
  by rewrite rev_involutive, rev_app_distr in Hpre.
Qed.

(** Trimming a trimmed string changes nothing. *)
Lemma strip_idem (s : str) : strip (strip s) = strip s.
Proof.
  unfold strip.
  assert (lstrip (rstrip (lstrip s)) = rstrip (lstrip s)) as ->.
  { apply lstrip_fix. intros c t Hct.
    destruct (rstrip_prefix (lstrip s)) as [post Hpost].
    rewrite Hct in Hpost. by apply (lstrip_head s c (t ++ post)). }
  unfold rstrip. by rewrite rev_involutive, lstrip_idem.
Qed.

Lemma elem_of_strip (c : char) (s : str) : c ∈ strip s -> c ∈ s.
Proof.
  unfold strip. intros Hc.
  destruct (rstrip_prefix (lstrip s)) as [post Hpost].
  destruct (lstrip_suffix s) as [pre Hpre].
  rewrite Hpre, Hpost. apply elem_of_app. right. apply elem_of_app. by left.
Qed.

(** *** When the pattern matches *)

Lemma lazy_until_complete (lit a b : str) :
  is_Some (lazy_until lit (a ++ lit ++ b)).
Proof.
  induction a as [|c a IH]; rewrite lazy_until_eq.
  - simpl. rewrite startswith_app. by eexists.
  - destruct (startswith _ lit); [by eexists|].
    simpl. destruct IH as [[g1 g2] ->]. by eexists.
Qed.

Lemma startswith_shorter (s p r : str) :
  startswith s (p ++ r) = true -> startswith s p = true.
Proof.
  rewrite !startswith_spec. intros [t ->]. exists (r ++ t).
  by rewrite <- app_assoc.
Qed.

Lemma re_match_iff (content : str) :
  is_Some (re_match content) <-> has_frontmatter content.
Proof.
  split.
  - intros [[fm body] Hm]. apply re_match_lines in Hm.
    pose proof (split_not_nil NL fm) as Hfm.
    destruct (split NL fm) as [|b0 blk]; [done|].
    exists b0, blk, (split NL body). split; [done | apply split_not_nil].
  - intros (b0 & blk & rest & Hsplit & Hrest).
    assert (content = (delimiter ++ [NL])
                      ++ join [NL] (b0 :: blk) ++ closing ++ join [NL] rest)
      as ->.
    { rewrite <- (join_split NL content), Hsplit.
      rewrite join_cons by done.
      change (b0 :: blk ++ delimiter :: rest)
        with ((b0 :: blk) ++ delimiter :: rest).
      rewrite join_app, (join_cons _ delimiter) by done.
      unfold closing. by rewrite <- !app_assoc. }
    unfold re_match. rewrite startswith_app, drop_app_length.
    apply lazy_until_complete.
Qed.

(** The two ways the parser can go. *)
Lemma parse_frontmatter_cases (content : str) :
  (re_match content = None
   /\ parse_frontmatter content = Some (∅, content))
  \/ (exists fm body (metadata : dict),
        re_match content = Some (fm, body)
        /\ parse_lines (split NL fm) ∅ = Some metadata
        /\ parse_frontmatter content = Some (metadata, body)).
Proof.
  unfold parse_frontmatter.
  destruct (re_match content) as [[fm body]|] eqn:Hm.
  - right. destruct (parse_lines_total (split NL fm) ∅) as [metadata Hrun].
    exists fm, body, metadata. split_and!; [done | done |].
    rewrite (re_match_sound _ _ _ Hm) at 1.
    rewrite startswith_app. simpl. by rewrite Hrun.
  - left. split; [done|]. by destruct (startswith content delimiter).
Qed.

Lemma re_match_shorter (content fm body : str) :
  re_match content = Some (fm, body) -> (length body < length content)%nat.
Proof.
  intros ->%re_match_sound. rewrite !length_app. simpl.
  rewrite !length_app. simpl. lia.
Qed.

(** X1: the parser returns for every text, and the body it returns is a
    tail of the text: the unpacking of a split line never fails, and no
    character of the body is made up. *)
Theorem parse_frontmatter_never_raises (content : str) :
  exists (metadata : dict) (body pre : str),
    parse_frontmatter content = Some (metadata, body)
    /\ content = pre ++ body.
Proof.
  destruct (parse_frontmatter_cases content)
    as [[_ Hp]|(fm & body & metadata & Hm & _ & Hp)].
  - exists ∅, content, []. done.
  - exists metadata, body, (delimiter ++ NL :: fm ++ closing).
    split; [done|]. rewrite (re_match_sound _ _ _ Hm) at 1.
    rewrite <- app_assoc, <- app_comm_cons. by rewrite <- app_assoc.
Qed.

(** X2: the parser gives the text back whole, with an empty mapping,
    exactly when the text has no frontmatter block that the pattern can
    match. *)
Theorem parse_frontmatter_identity_iff (content : str) :
  parse_frontmatter content = Some (∅, content)
  <-> ~ has_frontmatter content.
Proof.
  rewrite <- re_match_iff.
  destruct (parse_frontmatter_cases content)
    as [[Hm Hp]|(fm & body & metadata & Hm & _ & Hp)].
  - split; [|done]. intros _ [r Hr]. congruence.
  - split.
    + rewrite Hp. intros [= _ Hbody].
      apply re_match_shorter in Hm. rewrite Hbody in Hm. lia.
    + intros Hno. destruct Hno. by eexists.
Qed.

(** The match stops at the first closing delimiter line, and a delimiter
    line directly after the opening one belongs to the block. *)
Lemma re_match_block_first (content b0 : str) (blk rest : list str) :
  split NL content = delimiter :: b0 :: blk ++ delimiter :: rest ->
  delimiter ∉ blk -> rest <> [] ->
  re_match content = Some (join [NL] (b0 :: blk), join [NL] rest).
Proof.
  intros Hsplit Hnot Hrest.
  assert (Forall (fun p => NL ∉ p) (b0 :: blk)) as Hfree.
  { apply Forall_forall. intros p Hp.
    apply (split_parts_no_sep NL content). rewrite Hsplit.
    right. change (b0 :: blk ++ delimiter :: rest)
      with ((b0 :: blk) ++ delimiter :: rest).
    apply elem_of_app. by left. }
  assert (content = (delimiter ++ [NL])
                    ++ join [NL] (b0 :: blk) ++ closing ++ join [NL] rest)
    as ->.
  { rewrite <- (join_split NL content), Hsplit.
    rewrite join_cons by done.
    change (b0 :: blk ++ delimiter :: rest)
      with ((b0 :: blk) ++ delimiter :: rest).
    rewrite join_app, (join_cons _ delimiter) by done.
    unfold closing. by rewrite <- !app_assoc. }
  unfold re_match. rewrite startswith_app, drop_app_length.
  apply lazy_until_first. intros p r Hcut Hr.
  destruct (startswith _ closing) eqn:Hp; [exfalso|done].
  apply startswith_spec in Hp as [z Hz].
  destruct r as [|c r]; [done|]. injection Hz as -> Hz.
  apply (f_equal (split NL)) in Hz.
  change (r ++ closing ++ join [NL] rest)
    with (r ++ NL :: (delimiter ++ NL :: join [NL] rest)) in Hz.
  rewrite !split_app in Hz.
  apply (f_equal (split NL)) in Hcut.
  rewrite split_join, split_app in Hcut by done.
  pose proof (split_not_nil NL p) as Hp.
  destruct (split NL p) as [|h t]; [done|].
  injection Hcut as _ ->.
  apply Hnot, elem_of_app. right.
  pose proof (split_not_nil NL r).
  destruct (split NL r) as [|h' t']; [done|].
  injection Hz as -> _. left.
Qed.

(** X3: when the lines of a text are the delimiter, any line [b0] (the
    delimiter itself included), lines [blk] none of which is the
    delimiter, the delimiter, and at least one more line, the frontmatter
    block is [b0] with [blk]: the body is everything after the first
    closing delimiter, later delimiter lines included, and the keys are
    those of the lines of the block that hold a colon. *)
Theorem parse_frontmatter_first_closing
    (content b0 : str) (blk rest : list str) :
  split NL content = delimiter :: b0 :: blk ++ delimiter :: rest ->
  delimiter ∉ blk -> rest <> [] ->
  frontmatter_parsed content (b0 :: blk) rest.
Proof.
  intros Hsplit Hnot Hrest.
  pose proof (re_match_block_first _ _ _ _ Hsplit Hnot Hrest) as Hm.
  destruct (parse_frontmatter_cases content)
    as [[Hnone _]|(fm & body & metadata & Hm' & Hrun & Hp)]; [congruence|].
  assert (fm = join [NL] (b0 :: blk) /\ body = join [NL] rest) as [-> ->]
    by (split; congruence).
  rewrite split_join in Hrun; [|done|].
  - exists metadata. split_and!; [done | |].
    + intros k. split.
      * intros [v Hv].
        destruct (parse_lines_origin _ _ _ _ _ Hrun Hv)
          as [(line & Hin & Hkv)|Hempty].
        -- exists line. split; [done | by exists v].
        -- by rewrite lookup_empty in Hempty.
      * intros (line & Hin & Hkey). by eapply parse_lines_binds.
    + intros k v Hv.
      destruct (parse_lines_origin _ _ _ _ _ Hrun Hv) as [?|Hempty]; [done|].
      by rewrite lookup_empty in Hempty.
  - apply Forall_forall. intros p Hp'.
    apply (split_parts_no_sep NL content). rewrite Hsplit.
    right. change (b0 :: blk ++ delimiter :: rest)
      with ((b0 :: blk) ++ delimiter :: rest).
    apply elem_of_app. by left.
Qed.

Lemma parse_frontmatter_first_closing_witness :
  split NL nested_delimiters_post
  = delimiter :: py "---" :: [py "a: 1"]
    ++ delimiter :: [py "x"; py "---"; py "y"]
  /\ frontmatter_parsed nested_delimiters_post
       [py "---"; py "a: 1"] [py "x"; py "---"; py "y"].
Proof.
  split; [reflexivity|].
  apply (parse_frontmatter_first_closing nested_delimiters_post (py "---")
           [py "a: 1"] [py "x"; py "---"; py "y"]).
  - reflexivity.
  - decide_by_computation.
  - discriminate.
Defined.

(** X4: every key and every value of the mapping that the parser returns
    is trimmed (trimming it again changes nothing) and free of newlines,
    and no key holds a colon. *)
Theorem parse_frontmatter_trimmed
    (content : str) (metadata : dict) (body k v : str) :
  parse_frontmatter content = Some (metadata, body) ->
  metadata !! k = Some v ->
  strip k = k /\ strip v = v /\ (COLON ∉ k) /\ (NL ∉ k) /\ (NL ∉ v).
Proof.
  intros Hparse Hk.
  destruct (parse_frontmatter_cases content)
    as [[_ Hp]|(fm & body' & metadata' & _ & Hrun & Hp)];
    rewrite Hp in Hparse; injection Hparse as <- <-.
  { by rewrite lookup_empty in Hk. }
  destruct (parse_lines_origin _ _ _ _ _ Hrun Hk)
    as [(line & Hin & a & b & -> & Ha & -> & ->)|Hempty];
    [|by rewrite lookup_empty in Hempty].
  apply split_parts_no_sep in Hin.
  rewrite elem_of_app, elem_of_cons in Hin.
  split_and!.
  - apply strip_idem.
  - apply strip_idem.
  - intros Hc%elem_of_strip. done.
  - intros Hc%elem_of_strip. tauto.
  - intros Hc%elem_of_strip. tauto.
Qed.

Lemma parse_frontmatter_trimmed_witness :
  parse_frontmatter repeated_key_post
  = Some (repeated_key_metadata, py "body")
  /\ repeated_key_metadata !! py "title" = Some (py "Second")
  /\ strip (py "title") = py "title" /\ strip (py "Second") = py "Second"
  /\ (COLON ∉ py "title") /\ (NL ∉ py "title") /\ (NL ∉ py "Second").
Proof.
  assert (parse_frontmatter repeated_key_post
          = Some (repeated_key_metadata, py "body")) as Hparse
    by (vm_compute; reflexivity).
  assert (repeated_key_metadata !! py "title" = Some (py "Second")) as Hk
    by (vm_compute; reflexivity).
  split; [exact Hparse|]. split; [exact Hk|].
  exact (parse_frontmatter_trimmed _ _ _ _ _ Hparse Hk).
Defined.

End ParserExtras.

(** * More on the slug *)

Module SlugExtras.

Import PyStrFacts SlugAndPage.

Lemma split_max_not_nil (sep : char) (s : str) (n : nat) :
  split_max sep s n <> [].
Proof.
  revert n. induction s as [|c s IH]; intros n; simpl; [done|].
  destruct n as [|n]; [done|]. destruct (c =? sep); [done|].
  specialize (IH (S n)). by destruct (split_max sep s (S n)).
Qed.

(** A cut at the first separator, when cuts are left. *)
Lemma split_max_cut (sep : char) (a b : str) (n : nat) :
  sep ∉ a ->
  split_max sep (a ++ sep :: b) (S n) = a :: split_max sep b n.
Proof.
  induction a as [|c a IH]; simpl.
  - intros _. by rewrite N.eqb_refl.
  - rewrite not_elem_of_cons. intros [Hc Ha].
    assert ((c =? sep) = false) as -> by (apply N.eqb_neq; congruence).
    by rewrite (IH Ha).
Qed.

Lemma split_max_zero (sep : char) (s : str) : split_max sep s 0 = [s].
Proof. by destruct s. Qed.

Lemma split_max_length_le (sep : char) (s : str) (n : nat) :
  (length (split_max sep s n) <= S n)%nat.
Proof.
  revert n. induction s as [|c s IH]; intros n; simpl; [lia|].
  destruct n as [|n]; [simpl; lia|]. destruct (c =? sep).
  - simpl. specialize (IH n). lia.
  - specialize (IH (S n)).
    destruct (split_max sep s (S n)); simpl in *; lia.
Qed.

Lemma split_max_length_split (sep : char) (s : str) (n : nat) :
  (length (split_max sep s n) <= length (split sep s))%nat.
Proof.
  revert n. induction s as [|c s IH]; intros n; simpl; [lia|].
  pose proof (split_not_nil sep s) as Hne.
  destruct n as [|n].
  - destruct (c =? sep); destruct (split sep s); simpl; try done; lia.
  - destruct (c =? sep).
    + simpl. specialize (IH n). lia.
    + specialize (IH (S n)).
      destruct (split_max sep s (S n)), (split sep s); simpl in *; lia.
Qed.

Lemma elem_of_split_max (sep c : char) (s p : str) (n : nat) :
  p ∈ split_max sep s n -> c ∈ p -> c ∈ s.
Proof.
  revert n p. induction s as [|d s IH]; intros n p; simpl.
  - by intros ->%list_elem_of_singleton.
  - destruct n as [|n]; [by intros ->%list_elem_of_singleton|].
    destruct (d =? sep).
    + rewrite elem_of_cons. intros [->|Hp] Hc; [by apply elem_of_nil in Hc|].
      right. eauto.
    + specialize (IH (S n)).
      destruct (split_max sep s (S n)) as [|p0 ps].
      * intros ->%list_elem_of_singleton ->%list_elem_of_singleton. left.
      * rewrite elem_of_cons. intros [->|Hp] Hc.
        -- apply elem_of_cons in Hc as [->|Hc]; [left|].
           right. apply (IH p0); [left | done].
        -- right. apply (IH p); [by right | done].
Qed.

Lemma elem_of_replace_from (old : str) (c : char) (k : nat) (s : str) :
  c ∈ replace_from old [] k s -> c ∈ s.
Proof.
  revert k. induction s as [|d s IH]; intros k; simpl; [done|].
  destruct k as [|k].
  - destruct (startswith (d :: s) old); simpl.
    + intros Hc. right. eauto.
    + rewrite !elem_of_cons. intros [->|Hc]; [by left|]. right. eauto.
  - intros Hc. right. eauto.
Qed.

Lemma only_suffix (stem : str) :
  ~ occurs_in (py ".md") (stem ++ py ".m") ->
  forall a b, stem ++ py ".md" = a ++ py ".md" ++ b -> b = [].
Proof.
  intros Hno a b Hab.
  destruct (decide (b = [])) as [|Hb]; [done|]. exfalso.
  destruct (exists_last Hb) as (b' & x & ->).
  change (py ".md") with (py ".m" ++ [100]) in Hab at 1.
  rewrite !app_assoc in Hab. apply app_inj_tail in Hab as [Hab _].
  apply Hno. exists a, b'. by rewrite Hab, <- !app_assoc.
Qed.

(** X5: a file name made of three hyphen-free parts, a hyphen after each,
    a rest and the extension, in which the extension occurs at the end
    only, has the rest as its slug, with whatever hyphens the rest
    holds. *)
Theorem get_slug_from_filename_date_prefix (y m d rest : str) :
  HYPHEN ∉ y -> HYPHEN ∉ m -> HYPHEN ∉ d ->
  ~ occurs_in (py ".md")
      ((y ++ py "-" ++ m ++ py "-" ++ d ++ py "-" ++ rest) ++ py ".m") ->
  get_slug_from_filename
    ((y ++ py "-" ++ m ++ py "-" ++ d ++ py "-" ++ rest) ++ py ".md")
  = rest.
Proof.
  intros Hy Hm Hd Hno. unfold get_slug_from_filename.
  rewrite replace_suffix_only; [|done|by apply only_suffix].
  change (py "-") with [HYPHEN]. simpl app.
  rewrite !split_max_cut, split_max_zero by done.
  reflexivity.
Qed.

Lemma get_slug_from_filename_date_prefix_witness :
  get_slug_from_filename (py "2024-02-29-leap-day-notes.md")
  = py "leap-day-notes".
Proof.
  apply (get_slug_from_filename_date_prefix
           (py "2024") (py "02") (py "29") (py "leap-day-notes")).
  - decide_by_computation.
  - decide_by_computation.
  - decide_by_computation.
  - intros H%is_infix_spec. vm_compute in H. discriminate.
Defined.

(** X6: when the file name, with the extension removed, has fewer than
    four parts between hyphens, the slug is that whole name. *)
Theorem get_slug_from_filename_few_parts (filename : str) :
  (length (split HYPHEN (replace filename (py ".md") [])) < 4)%nat ->
  get_slug_from_filename filename = replace filename (py ".md") [].
Proof.
  intros Hfew. unfold get_slug_from_filename.
  pose proof (split_max_length_split HYPHEN
                (replace filename (py ".md") []) 3) as Hle.
  destruct (Nat.leb_spec 4
              (length (split_max HYPHEN (replace filename (py ".md") []) 3)));
    [lia | done].
Qed.

Lemma get_slug_from_filename_few_parts_witness :
  get_slug_from_filename (py "about-me.md") = py "about-me".
Proof.
  apply (get_slug_from_filename_few_parts (py "about-me.md")).
  vm_compute. lia.
Defined.

(** X7: every character of the slug is a character of the file name; in
    particular a file name without a path separator gives a slug without
    one. *)
Theorem get_slug_from_filename_chars (filename : str) :
  Forall (fun c => c ∈ filename) (get_slug_from_filename filename).
Proof.
  apply Forall_forall. intros c. unfold get_slug_from_filename.
  set (base := replace filename (py ".md") []).
  assert (forall x, x ∈ base -> x ∈ filename) as Hbase
    by (intros x; apply elem_of_replace_from).
  pose proof (split_max_length_le HYPHEN base 3) as Hle.
  pose proof (fun p => elem_of_split_max HYPHEN c base p 3) as Hparts.
  destruct (split_max HYPHEN base 3) as [|p1 [|p2 [|p3 [|p4 [|p5 ps]]]]];
    simpl in *; try (by auto); [|lia].
  intros Hc. apply Hbase, (Hparts p4); [|done].
  do 3 right. left.
Qed.

End SlugExtras.

(** * The text of the index *)

Module IndexExtras.

Import Json PyStrFacts IndexFacts.

Lemma ascii_text_app (a b : str) :
  ascii_text a -> ascii_text b -> ascii_text (a ++ b).
Proof. intros. by apply Forall_app. Qed.

Lemma ascii_text_join (sep : str) (l : list str) :
  ascii_text sep -> Forall ascii_text l -> ascii_text (join sep l).
Proof.
  intros Hsep. induction 1 as [|p l Hp Hl IH]; [constructor|].
  destruct l as [|p' l]; [done|].
  rewrite join_cons by done. by repeat apply ascii_text_app.
Qed.

Ltac ascii_closed := unfold ascii_text; decide_by_computation.

Lemma ascii_hexdigit (n : N) : ascii_text [hexdigit (n mod 16)].
Proof.
  pose proof (N.mod_lt n 16 ltac:(lia)) as Hlt. unfold hexdigit.
  generalize dependent (n mod 16). intros x Hlt.
  constructor; [|constructor]. right.
  destruct (N.ltb_spec x 10); lia.
Qed.

Lemma ascii_u_escape (n : N) : ascii_text (u_escape n).
Proof.
  unfold u_escape, hex4.
  change (ascii_text ([BSL; 117] ++ [hexdigit (n / 4096 mod 16)]
                      ++ [hexdigit (n / 256 mod 16)]
                      ++ [hexdigit (n / 16 mod 16)]
                      ++ [hexdigit (n mod 16)])).
  repeat apply ascii_text_app; try apply ascii_hexdigit.
  ascii_closed.
Qed.

Lemma ascii_escape_char (c : char) : ascii_text (escape_char c).
Proof.
  unfold escape_char.
  destruct (c =? BSL); [ascii_closed|].
  destruct (c =? DQ); [ascii_closed|].
  destruct ((32 <=? c) && (c <=? 126)) eqn:Hc.
  { apply andb_true_iff in Hc as [?%N.leb_le ?%N.leb_le].
    constructor; [right; lia | constructor]. }
  destruct (c =? 8); [ascii_closed|].
  destruct (c =? 12); [ascii_closed|].
  destruct (c =? 10); [ascii_closed|].
  destruct (c =? 13); [ascii_closed|].
  destruct (c =? 9); [ascii_closed|].
  destruct (c <? 65536); [apply ascii_u_escape|].
  cbv zeta. apply ascii_text_app; apply ascii_u_escape.
Qed.

(** A string of the index is quoted and escaped down to printable
    ASCII. *)
Lemma ascii_encode_basestring_ascii (s : str) :
  ascii_text (encode_basestring_ascii s).
Proof.
  unfold encode_basestring_ascii.
  change (ascii_text ([DQ] ++ concat (map escape_char s) ++ [DQ])).
  apply ascii_text_app; [ascii_closed|].
  apply ascii_text_app; [|ascii_closed].
  induction s as [|c s IH]; [constructor|]. simpl.
  apply ascii_text_app; [apply ascii_escape_char | done].
Qed.

Lemma ascii_newline_indent (indent level : nat) :
  ascii_text (newline_indent indent level).
Proof.
  unfold newline_indent. constructor; [by left|].
  apply Forall_forall. intros c Hc%list_elem_of_In%repeat_spec. right. lia.
Qed.

Lemma ascii_separator (indent level : nat) :
  ascii_text (py "," ++ newline_indent indent level).
Proof.
  apply ascii_text_app; [ascii_closed | apply ascii_newline_indent].
Qed.

Lemma ascii_post_to_json (level : nat) (p : post) :
  ascii_text (iterencode 2 level (post_to_json p)).
Proof.
  unfold post_to_json. destruct (decide (p = [])) as [->|Hp].
  - ascii_closed.
  - rewrite iterencode_dict by (by destruct p).
    apply ascii_text_app; [ascii_closed|].
    apply ascii_text_app; [apply ascii_newline_indent|].
    apply ascii_text_app; [|apply ascii_text_app;
                             [apply ascii_newline_indent | ascii_closed]].
    apply ascii_text_join; [apply ascii_separator|].
    rewrite map_map. apply Forall_forall. intros x Hx.
    apply list_elem_of_In, in_map_iff in Hx as (kv & <- & _).
    cbn [fst snd iterencode].
    apply ascii_text_app; [apply ascii_encode_basestring_ascii|].
    apply ascii_text_app; [ascii_closed|].
    apply ascii_encode_basestring_ascii.
Qed.

(** X8: the text written to the index holds newlines and printable ASCII
    only, whatever characters the titles, dates, slugs and descriptions
    hold. *)
Theorem generate_posts_json_ascii (posts : list post) :
  exists content,
    generate_posts_json posts = [WriteFile (py "posts.json") content]
    /\ ascii_text content.
Proof.
  eexists. split; [reflexivity|]. unfold dumps.
  destruct (decide (posts = [])) as [->|Hp].
  - ascii_closed.
  - rewrite iterencode_list by (by destruct posts).
    apply ascii_text_app; [ascii_closed|].
    apply ascii_text_app; [apply ascii_newline_indent|].
    apply ascii_text_app; [|apply ascii_text_app;
                             [apply ascii_newline_indent | ascii_closed]].
    apply ascii_text_join; [apply ascii_separator|].
    rewrite map_map. apply Forall_forall. intros x Hx.
    apply list_elem_of_In, in_map_iff in Hx as (q0 & <- & _).
    apply ascii_post_to_json.
Qed.

End IndexExtras.

(** * The fragments *)

Module FragmentFacts.

Import PyStrFacts SlugAndPage BuildFacts.

Lemma post_get_is_Some (p : post) (k : str) :
  k ∈ map fst p -> is_Some (post_get p k).
Proof.
  induction p as [|[k0 v0] p IH]; simpl; [by intros ?%elem_of_nil|].
  rewrite elem_of_cons. intros Hk.
  destruct (decide (k0 = k)); [by eexists|].
  apply IH. by destruct Hk.
Qed.

Ltac option_cases :=
  cbn [mbind option_bind];
  split;
  [ intros Hsome; try (by apply is_Some_None in Hsome);
    split_and!; first [done | by eexists]
  | intros Hkeys; try (by eexists);
    repeat (let H := fresh in destruct Hkeys as [H Hkeys];
            try (by apply is_Some_None in H)) ].

Lemma list_item_keys (p : post) :
  is_Some (list_item p)
  <-> Forall (fun k => is_Some (post_get p k)) list_keys.
Proof.
  unfold list_item, list_keys. rewrite !Forall_cons, Forall_nil. cbv beta.
  destruct (post_get p (py "slug")) as [slug|]; [|option_cases].
  destruct (post_get p (py "title")) as [title|]; [|option_cases].
  destruct (post_get p (py "date")) as [date|]; option_cases.
Qed.

Lemma generate_latest_post_html_keys_aux (p : post) :
  is_Some (generate_latest_post_html p)
  <-> Forall (fun k => is_Some (post_get p k)) record_keys.
Proof.
  unfold generate_latest_post_html, record_keys.
  rewrite !Forall_cons, Forall_nil. cbv beta.
  destruct (post_get p (py "slug")) as [slug|]; [|option_cases].
  destruct (post_get p (py "title")) as [title|]; [|option_cases].
  destruct (post_get p (py "date")) as [date|]; [|option_cases].
  destruct (post_get p (py "description")) as [description|]; option_cases.
Qed.

(** X9: the latest-post fragment is made exactly for the posts that hold
    the four keys title, date, slug and description; a post without one of
    them raises. *)
Theorem generate_latest_post_html_keys (p : post) :
  is_Some (generate_latest_post_html p)
  <-> Forall (fun k => is_Some (post_get p k)) record_keys.
Proof. apply generate_latest_post_html_keys_aux. Qed.

(** The loop adds the items of the posts, in order, to the items it was
    given, and stops at the first post without an item. *)
Lemma list_items_Some (posts : list post) (acc : list str) :
  Forall (fun p => is_Some (list_item p)) posts ->
  exists items,
    list_items posts acc = Some (acc ++ items)
    /\ Forall2 (fun p item => list_item p = Some item) posts items.
Proof.
  intros Hall. revert acc.
  induction Hall as [|p posts [item Hitem] _ IH]; intros acc.
  - exists []. split; [by rewrite app_nil_r | constructor].
  - destruct (IH (acc ++ [item])) as (items & Hrun & Hitems).
    exists (item :: items). split; [|by constructor].
    simpl. rewrite Hitem. simpl. rewrite Hrun. by rewrite <- app_assoc.
Qed.

Lemma list_items_None (posts : list post) (acc : list str) :
  is_Some (list_items posts acc) ->
  Forall (fun p => is_Some (list_item p)) posts.
Proof.
  revert acc. induction posts as [|p posts IH]; intros acc; [constructor|].
  simpl. destruct (list_item p) as [item|] eqn:Hitem; simpl.
  - intros Hrest. constructor; [rewrite Hitem; by eexists | eauto].
  - by intros ?%is_Some_None.
Qed.

(** X10: the list of all posts is made exactly when every post holds the
    keys slug, title and date; a description is not needed, and one post
    without a key makes the whole call raise. *)
Theorem generate_all_posts_html_keys (posts : list post) :
  is_Some (generate_all_posts_html posts)
  <-> Forall (fun p => Forall (fun k => is_Some (post_get p k)) list_keys)
             posts.
Proof.
  unfold generate_all_posts_html. split.
  - intros Hsome.
    assert (is_Some (list_items posts [])) as Hitems.
    { destruct (list_items posts []); [by eexists|].
      cbn [mbind option_bind] in Hsome. by apply is_Some_None in Hsome. }
    apply list_items_None in Hitems.
    eapply Forall_impl; [exact Hitems|]. intros p. apply list_item_keys.
  - intros Hall.
    destruct (list_items_Some posts []) as (items & -> & _); [|by eexists].
    eapply Forall_impl; [exact Hall|]. intros p. apply list_item_keys.
Qed.

(** The item of a post links to the page of its slug. *)
Lemma list_item_link (p : post) (name item : str) :
  post_get p (py "slug") = Some (get_slug_from_filename name) ->
  list_item p = Some item ->
  occurs_in (page_link name) item.
Proof.
  unfold list_item. intros ->.
  destruct (post_get p (py "title")) as [title|]; [|done].
  destruct (post_get p (py "date")) as [date|]; [|done].
  cbn [mbind option_bind join]. intros [= <-].
  exists (py "<li>" ++ [NL] ++ py "                        ").
  eexists. unfold page_link, output_path.
  rewrite <- !app_assoc. reflexivity.
Qed.

(** X11: on the list that a run returns, neither fragment raises; the
    list of all posts has one item for each processed file, in the order
    of processing, and each item links to the page that the run wrote for
    that file. *)
Theorem fragments_of_build_posts
    (markdown : str -> str) (posts_dir : list (str * str)) :
  exists (st : state) (items : list str),
    build_posts markdown posts_dir = Some st
    /\ Forall (fun p => is_Some (generate_latest_post_html p))
         (posts_list st)
    /\ generate_all_posts_html (posts_list st)
       = Some (join [NL]
                 [ py "<ul class=" ++ q "posts-list" ++ py ">";
                   py "                " ++ join [NL] items;
                   py "            </ul>" ])
    /\ Forall2 (fun f item => occurs_in (page_link (fst f)) item)
         (sorted_reverse (glob_md posts_dir)) items.
Proof.
  destruct (build_posts_outputs markdown posts_dir) as (outs & Houts & Hrun).
  assert (Forall (fun p => map fst p = record_keys) (map snd outs)) as Hkeys.
  { clear Hrun. induction Houts as [|f o fs os (_ & Hk & _) _ IH];
      simpl; by constructor. }
  assert (Forall (fun p => is_Some (list_item p)) (map snd outs)) as Hitem.
  { eapply Forall_impl; [exact Hkeys|]. intros p Hp.
    apply list_item_keys. apply Forall_forall. intros k Hk.
    apply post_get_is_Some. rewrite Hp. unfold list_keys in Hk.
    repeat (apply elem_of_cons in Hk as [->|Hk];
            [decide_by_computation|]).
    by apply elem_of_nil in Hk. }
  destruct (list_items_Some _ [] Hitem) as (items & Hitems & Hall).
  eexists _, items. split; [exact Hrun|]. cbn [posts_list]. split_and!.
  - eapply Forall_impl; [exact Hkeys|]. intros p Hp.
    apply generate_latest_post_html_keys_aux, Forall_forall. intros k Hk.
    apply post_get_is_Some. by rewrite Hp.
  - unfold generate_all_posts_html. by rewrite Hitems.
  - clear Hrun Hkeys Hitem Hitems. revert items Hall.
    induction Houts as [|f o fs os (_ & _ & Hslug) _ IH]; intros items Hall.
    + apply Forall2_nil_inv_l in Hall as ->. constructor.
    + simpl in Hall. apply Forall2_cons_inv_l in Hall
        as (item & items' & Hitem & Hrest & ->).
      constructor; [|by apply IH]. by eapply list_item_link.
Qed.

End FragmentFacts.

(** * More on the run *)

Module BuildExtras.

Import PyStrFacts FrontmatterFacts ParseFrontmatter SlugAndPage BuildFacts.

#[local] Existing Instance name_ge_total.
#[local] Existing Instance name_ge_trans.

Section WithMarkdown.

Variable markdown : str -> str.

Lemma post_outputs_paths (files : list (str * str))
    (outs : list (event * post)) :
  Forall2 post_output files outs ->
  written_paths (map fst outs) = map (fun f => output_path (fst f)) files.
Proof.
  induction 1 as [|f o files outs ([page He] & _) _ IH]; [done|].
  change (map fst (o :: outs)) with (fst o :: map fst outs).
  rewrite He. cbn [written_paths map]. by rewrite IH.
Qed.

Lemma written_paths_app (a b : list event) :
  written_paths (a ++ b) = written_paths a ++ written_paths b.
Proof.
  induction a as [|[path|path content] a IH]; simpl; [done|done|].
  by rewrite IH.
Qed.

(** X12: a run in which no call to the file system, to the renderer or
    to print fails returns, and has this shape: it creates the output
    directory, then writes one page for each markdown file, each at a path
    under the output directory, then at most the index; and it returns one
    record for each markdown file.  The model has no such failure: a
    directory gives the text of each of its files, so a markdown file that
    cannot be opened or decoded, on which the script stops with an
    exception, is in no directory of the model. *)
Theorem build_posts_shape (posts_dir : list (str * str)) :
  exists (st : state) (pages index : list event),
    build_posts markdown posts_dir = Some st
    /\ trace st = MkDir (py "posts") :: pages ++ index
    /\ length pages = length (glob_md posts_dir)
    /\ length (posts_list st) = length (glob_md posts_dir)
    /\ Forall (fun e => exists path content,
                  e = WriteFile path content
                  /\ startswith path (py "posts/") = true) pages
    /\ (index = [] \/ exists content,
                        index = [WriteFile (py "posts.json") content]).
Proof.
  destruct (build_posts_outputs markdown posts_dir) as (outs & Houts & Hrun).
  pose proof (Forall2_length _ _ _ Houts) as Hlen.
  rewrite (Permutation_length (sorted_reverse_perm _)) in Hlen.
  eexists _, (map fst outs), _. split; [exact Hrun|].
  cbn [trace posts_list].
  split_and!; [reflexivity | by rewrite length_map | by rewrite length_map | |].
  - clear Hrun Hlen.
    induction Houts as [|f o fs os ([page He] & _) _ IH]; [constructor|].
    change (map fst (o :: os)) with (fst o :: map fst os).
    constructor; [|done]. rewrite He. eexists _, _. split; [reflexivity|].
    unfold output_path. apply startswith_app.
  - destruct (decide (map snd outs = [])); [by left|]. right. by eexists.
Qed.

(** X13: a file whose name does not end in the extension has no effect
    on the run, wherever the directory lists it. *)
Theorem build_posts_ignores_other_files
    (l1 l2 : list (str * str)) (f : str * str) :
  endswith (fst f) (py ".md") = false ->
  build_posts markdown (l1 ++ f :: l2) = build_posts markdown (l1 ++ l2).
Proof.
  intros Hf. unfold build_posts, glob_md.
  rewrite !filter_app, filter_cons_False; [done|].
  rewrite Hf. by intros [].
Qed.

Lemma NoDup_fst_inj (l : list (str * str)) (x y : str * str) :
  NoDup (map fst l) -> x ∈ l -> y ∈ l -> fst x = fst y -> x = y.
Proof.
  induction l as [|z l IH]; simpl; [by intros _ ?%elem_of_nil|].
  rewrite NoDup_cons, !elem_of_cons. intros [Hz Hnd] [->|Hx] [->|Hy] Heq.
  - done.
  - destruct Hz. rewrite Heq. by apply (list_elem_of_fmap_2 fst).
  - destruct Hz. rewrite <- Heq. by apply (list_elem_of_fmap_2 fst).
  - by apply IH.
Qed.

(** Two listings of the same files are processed in the same order. *)
Lemma sorted_reverse_glob_md_perm (d1 d2 : list (str * str)) :
  d1 ≡ₚ d2 -> NoDup (map fst d1) ->
  sorted_reverse (glob_md d1) = sorted_reverse (glob_md d2).
Proof.
  intros Hperm Hnd.
  assert (glob_md d1 ≡ₚ glob_md d2) as Hglob
    by (unfold glob_md; by rewrite Hperm).
  apply (StronglySorted_unique_strong name_ge).
  - intros x1 x2 Hx1 Hx2 H12 H21.
    apply (NoDup_fst_inj (glob_md d1)); [by apply glob_md_NoDup | | |].
    + by rewrite <- (sorted_reverse_perm (glob_md d1)).
    + by rewrite Hglob, <- (sorted_reverse_perm (glob_md d2)).
    + unfold name_ge in *.
      apply str_leb_antisym; by apply Is_true_true.
  - apply (StronglySorted_merge_sort name_ge).
  - apply (StronglySorted_merge_sort name_ge).
  - by rewrite !sorted_reverse_perm.
Qed.

(** X14: the run does not depend on the order in which the system lists
    the directory: two listings of the same files, with distinct names,
    give the same effects and the same returned list. *)
Theorem build_posts_listing_order (d1 d2 : list (str * str)) :
  d1 ≡ₚ d2 -> NoDup (map fst d1) ->
  build_posts markdown d1 = build_posts markdown d2.
Proof.
  intros Hperm Hnd. unfold build_posts.
  by rewrite (sorted_reverse_glob_md_perm d1 d2).
Qed.


Lemma output_path_inj (a b : str) :
  py "posts/" ++ a ++ py ".html" = py "posts/" ++ b ++ py ".html" -> a = b.
Proof. intros H%app_inv_head%app_inv_tail. done. Qed.

(** X16: when the markdown files of the directory have pairwise distinct
    slugs, the run writes to pairwise distinct paths: no page overwrites
    another page or the index. *)
Theorem build_posts_distinct_paths (posts_dir : list (str * str)) :
  NoDup (map (fun f => get_slug_from_filename (fst f)) (glob_md posts_dir)) ->
  exists st : state,
    build_posts markdown posts_dir = Some st
    /\ NoDup (written_paths (trace st)).
Proof.
  intros Hslugs.
  destruct (build_posts_outputs markdown posts_dir) as (outs & Houts & Hrun).
  eexists. split; [exact Hrun|]. cbn [trace written_paths].
  rewrite written_paths_app, (post_outputs_paths _ _ Houts).
  assert (NoDup (map (fun f : list N * list N => output_path (fst f))
                   (sorted_reverse (glob_md posts_dir)))) as Hpaths.
  { replace (map (fun f : list N * list N => output_path (fst f))
               (sorted_reverse (glob_md posts_dir)))
      with ((fun s => py "posts/" ++ s ++ py ".html")
              <$> ((fun f : list N * list N => get_slug_from_filename (fst f))
                     <$> sorted_reverse (glob_md posts_dir)))
      by (by rewrite <- list_fmap_compose).
    apply NoDup_fmap_2_strong.
    - intros a b _ _. apply output_path_inj.
    - by rewrite sorted_reverse_perm. }
  destruct (decide (map snd outs = [])); simpl.
  - by rewrite app_nil_r.
  - apply NoDup_app. split_and!; [done | | apply NoDup_singleton].
    intros path Hpath ->%list_elem_of_singleton.
    apply (list_elem_of_fmap (fun f : list N * list N => output_path (fst f)))
      in Hpath as (f & Hf & _).
    discriminate.
Qed.

End WithMarkdown.

Lemma build_posts_ignores_other_files_witness :
  endswith (py "notes.txt") (py ".md") = false
  /\ build_posts toy_markdown sample_dir
     = build_posts toy_markdown
         [ (py "2025-01-02-second.md", plain_post);
           (py "2025-11-05-first-post.md", hello_post);
           (py "2025-01-10-third.md", sample_post) ].
Proof.
  split; [reflexivity|].
  exact (build_posts_ignores_other_files toy_markdown
           [(py "2025-01-02-second.md", plain_post)]
           [ (py "2025-11-05-first-post.md", hello_post);
             (py "2025-01-10-third.md", sample_post) ]
           (py "notes.txt", py "not a post") eq_refl).
Defined.

Lemma build_posts_listing_order_witness :
  sample_dir ≡ₚ rev sample_dir
  /\ NoDup (map fst sample_dir)
  /\ build_posts toy_markdown sample_dir
     = build_posts toy_markdown (rev sample_dir).
Proof.
  assert (sample_dir ≡ₚ rev sample_dir) as Hperm
    by (rewrite <- reverse_Permutation at 1; by rewrite rev_alt || done).
  assert (NoDup (map fst sample_dir)) as Hnd by decide_by_computation.
  split_and!; [exact Hperm | exact Hnd |].
  exact (build_posts_listing_order toy_markdown _ _ Hperm Hnd).
Defined.


Lemma build_posts_distinct_paths_witness :
  NoDup (map (fun f => get_slug_from_filename (fst f)) (glob_md sample_dir))
  /\ exists st : state,
       build_posts toy_markdown sample_dir = Some st
       /\ NoDup (written_paths (trace st)).
Proof.
  assert (NoDup (map (fun f => get_slug_from_filename (fst f))
                   (glob_md sample_dir))) as Hslugs
    by decide_by_computation.
  split; [exact Hslugs|].
  exact (build_posts_distinct_paths toy_markdown sample_dir Hslugs).
Defined.

End BuildExtras.

(** * The strings of the index *)

Module JsonTextFacts.

Import Json PyStrFacts.

Lemma all_from_spec (fuel : nat) (n : N) (P : N -> bool) :
  all_from fuel n P = true ->
  forall m, n <= m -> m < n + N.of_nat fuel -> P m = true.
Proof.
  revert n. induction fuel as [|f IH]; intros n; simpl.
  - intros _ m ? ?. lia.
  - intros [Hn Hrest]%andb_true_iff m Hle Hlt.
    destruct (N.eq_dec m n) as [->|Hne]; [done|].
    apply (IH (N.succ n)); [done | lia | lia].
Qed.

Lemma hexval_hexdigit (d : N) : d < 16 -> hexval (hexdigit d) = Some d.
Proof.
  intros Hd. unfold hexdigit, hexval.
  destruct (N.ltb_spec d 10).
  - replace ((48 <=? 48 + d) && (48 + d <=? 57)) with true.
    + f_equal. lia.
    + symmetry. apply andb_true_iff. split; apply N.leb_le; lia.
  - replace ((48 <=? 87 + d) && (87 + d <=? 57)) with false.
    + replace ((97 <=? 87 + d) && (87 + d <=? 102)) with true.
      * f_equal. lia.
      * symmetry. apply andb_true_iff. split; apply N.leb_le; lia.
    + symmetry. apply andb_false_iff. right. apply N.leb_gt. lia.
Qed.

(** The four digits that [hex4] writes for a sixteen-bit number read back
    as that number. *)
Lemma hex4val_hex4 (n : N) :
  n < 65536 ->
  hex4val (hexdigit (n / 4096 mod 16)) (hexdigit (n / 256 mod 16))
    (hexdigit (n / 16 mod 16)) (hexdigit (n mod 16)) = Some n.
Proof.
  intros Hn. unfold hex4val.
  rewrite !hexval_hexdigit by (apply N.mod_lt; lia).
  cbn [mbind option_bind]. f_equal.
  pose proof (N.div_mod n 16 ltac:(lia)) as H0.
  pose proof (N.div_mod (n / 16) 16 ltac:(lia)) as H1.
  rewrite !N.Div0.div_div in *.
  change (16 * 16) with 256 in *.
  assert (n / 4096 < 16) as H3 by (apply N.Div0.div_lt_upper_bound; lia).
  rewrite (N.mod_small (n / 4096) 16) by done.
  pose proof (N.div_mod (n / 256) 16 ltac:(lia)) as H4.
  rewrite N.Div0.div_div in H4. change (256 * 16) with 4096 in H4.
  generalize dependent (n mod 16). generalize dependent (n / 16 mod 16).
  generalize dependent (n / 256 mod 16). generalize dependent (n / 4096).
  generalize dependent (n / 256). generalize dependent (n / 16).
  intros. lia.
Qed.

Lemma unquote_u (h1 h2 h3 h4 u : N) (s3 : str) :
  hex4val h1 h2 h3 h4 = Some u -> high_surrogate u = false ->
  unquote (BSL :: 117 :: h1 :: h2 :: h3 :: h4 :: s3) = cons u <$> unquote s3.
Proof.
  intros Hu Hh. cbn [unquote].
  change (BSL =? DQ) with false. change (BSL =? BSL) with true.
  change (117 =? 117) with true. cbv iota. rewrite Hu, Hh. reflexivity.
Qed.

Lemma unquote_pair (h1 h2 h3 h4 g1 g2 g3 g4 u u2 : N) (s4 : str) :
  hex4val h1 h2 h3 h4 = Some u -> high_surrogate u = true ->
  hex4val g1 g2 g3 g4 = Some u2 -> low_surrogate u2 = true ->
  unquote (BSL :: 117 :: h1 :: h2 :: h3 :: h4
           :: BSL :: 117 :: g1 :: g2 :: g3 :: g4 :: s4)
  = cons (surrogate_pair u u2) <$> unquote s4.
Proof.
  intros Hu Hh Hu2 Hl. cbn [unquote].
  change (BSL =? DQ) with false. change (BSL =? BSL) with true.
  change (117 =? 117) with true. cbv iota. rewrite Hu, Hh.
  cbn [andb]. rewrite Hu2, Hl. reflexivity.
Qed.

Lemma unquote_simple (e x : N) (s2 : str) :
  e <> 117 -> simple_escape e = Some x ->
  unquote (BSL :: e :: s2) = cons x <$> unquote s2.
Proof.
  intros He Hx. cbn [unquote].
  change (BSL =? DQ) with false. change (BSL =? BSL) with true. cbv iota.
  apply N.eqb_neq in He as ->. by rewrite Hx.
Qed.

Lemma unquote_plain (c : N) (s1 : str) :
  c <> DQ -> c <> BSL -> 32 <= c ->
  unquote (c :: s1) = cons c <$> unquote s1.
Proof.
  intros H1 H2 H3. cbn [unquote].
  apply N.eqb_neq in H1 as ->. apply N.eqb_neq in H2 as ->.
  apply N.leb_le in H3. rewrite N.ltb_antisym, H3. reflexivity.
Qed.

Lemma surrogate_all : all_from (N.to_nat 1024) 0 surrogate_ok = true.
Proof. vm_compute. reflexivity. Qed.

(** The surrogates that [escape_char] writes for the code point
    [n + 65536]. *)
Lemma surrogates (n : N) :
  n < 1048576 ->
  N.lor 55296 (N.land (N.shiftr n 10) 1023) = 55296 + n / 1024
  /\ N.lor 56320 (N.land n 1023) = 56320 + n mod 1024.
Proof.
  intros Hn.
  assert (n / 1024 < 1024) as Ha by (apply N.Div0.div_lt_upper_bound; lia).
  assert (n mod 1024 < 1024) as Hb by (apply N.mod_lt; lia).
  rewrite N.shiftr_div_pow2. change (2 ^ 10) with 1024.
  change 1023 with (N.ones 10). rewrite !N.land_ones.
  change (2 ^ 10) with 1024. rewrite (N.mod_small (n / 1024)) by done.
  pose proof (all_from_spec _ _ _ surrogate_all (n / 1024)) as H1.
  pose proof (all_from_spec _ _ _ surrogate_all (n mod 1024)) as H2.
  rewrite N2Nat.id in H1, H2.
  specialize (H1 (N.le_0_l _) Ha). specialize (H2 (N.le_0_l _) Hb).
  apply andb_true_iff in H1 as [H1%N.eqb_eq _].
  apply andb_true_iff in H2 as [_ H2%N.eqb_eq]. done.
Qed.

Lemma high_surrogate_false (c : N) :
  ~ (55296 <= c /\ c <= 56319) -> high_surrogate c = false.
Proof.
  intros Hc. unfold high_surrogate.
  destruct (N.leb_spec 55296 c), (N.leb_spec c 56319); try done.
  destruct Hc. done.
Qed.

Lemma unquote_escape_char (c : N) (tail : str) :
  python_char c ->
  unquote (escape_char c ++ tail) = cons c <$> unquote tail.
Proof.
  intros [Hmax Hhigh]. unfold escape_char.
  destruct (N.eqb_spec c BSL) as [->|Hb];
    [by apply (unquote_simple BSL BSL)|].
  destruct (N.eqb_spec c DQ) as [->|Hq];
    [by apply (unquote_simple DQ DQ)|].
  destruct ((32 <=? c) && (c <=? 126)) eqn:Hp.
  { apply andb_true_iff in Hp as [Hlo%N.leb_le _].
    by apply unquote_plain. }
  destruct (N.eqb_spec c 8) as [->|_]; [by apply (unquote_simple 98 8)|].
  destruct (N.eqb_spec c 12) as [->|_]; [by apply (unquote_simple 102 12)|].
  destruct (N.eqb_spec c 10) as [->|_]; [by apply (unquote_simple 110 10)|].
  destruct (N.eqb_spec c 13) as [->|_]; [by apply (unquote_simple 114 13)|].
  destruct (N.eqb_spec c 9) as [->|_]; [by apply (unquote_simple 116 9)|].
  destruct (N.ltb_spec c 65536) as [Hlt|Hge].
  - apply unquote_u; [by apply hex4val_hex4 | by apply high_surrogate_false].
  - cbv zeta.
    assert (c - 65536 < 1048576) as Hn by lia.
    destruct (surrogates _ Hn) as [-> ->].
    pose proof (N.div_mod (c - 65536) 1024 ltac:(lia)) as Hc.
    assert ((c - 65536) / 1024 < 1024) as Hdiv
      by (apply N.Div0.div_lt_upper_bound; lia).
    assert ((c - 65536) mod 1024 < 1024) as Hmod by (apply N.mod_lt; lia).
    remember ((c - 65536) / 1024) as a eqn:Ea.
    remember ((c - 65536) mod 1024) as b eqn:Eb. clear Ea Eb.
    replace c with (surrogate_pair (55296 + a) (56320 + b)) at 1
      by (unfold surrogate_pair; lia).
    unfold u_escape, hex4. cbn [app].
    apply unquote_pair;
      [ apply hex4val_hex4; lia
      | unfold high_surrogate; apply andb_true_iff;
        split; apply N.leb_le; lia
      | apply hex4val_hex4; lia
      | unfold low_surrogate; apply andb_true_iff;
        split; apply N.leb_le; lia ].
Qed.

Lemma unquote_escaped (s : str) :
  python_text s ->
  unquote (concat (map escape_char s) ++ [DQ]) = Some s.
Proof.
  induction 1 as [|c s Hc _ IH]; [reflexivity|].
  cbn [map concat]. rewrite <- app_assoc.
  rewrite unquote_escape_char by done. by rewrite IH.
Qed.

Lemma json_string_encode (s : str) :
  python_text s -> json_string (encode_basestring_ascii s) = Some s.
Proof.
  intros Hs. unfold encode_basestring_ascii, json_string.
  change (DQ =? DQ) with true. cbv iota. by apply unquote_escaped.
Qed.

End JsonTextFacts.

(** * The index as a JSON text *)

Module IndexClaim.

Import PyStrFacts FrontmatterFacts SlugAndPage IndexFacts BuildFacts.
Import ParserExtras SlugExtras JsonTextFacts.

Lemma python_text_sub (s t : str) :
  python_text t -> (forall c, c ∈ s -> c ∈ t) -> python_text s.
Proof.
  unfold python_text. rewrite !Forall_forall. intros Ht Hsub c Hc.
  by apply Ht, Hsub.
Qed.

Lemma python_text_closed_title : python_text (py "Untitled").
Proof. unfold python_text, python_char. decide_by_computation. Qed.

Lemma elem_of_split_part (sep c : char) (s p : str) :
  p ∈ split sep s -> c ∈ p -> c ∈ s.
Proof.
  intros Hp Hc. rewrite <- (join_split sep s).
  induction (split sep s) as [|p0 ps IH]; [by apply elem_of_nil in Hp|].
  destruct ps as [|p1 ps].
  - apply list_elem_of_singleton in Hp as ->. done.
  - rewrite join_cons by done. apply elem_of_cons in Hp as [->|Hp].
    + apply elem_of_app. by left.
    + apply elem_of_app. right. apply elem_of_app. right. by apply IH.
Qed.

(** Every character of a value of the mapping is a character of the
    text. *)
Lemma metadata_value_chars
    (content : str) (metadata : dict) (body k v : str) (c : char) :
  parse_frontmatter content = Some (metadata, body) ->
  metadata !! k = Some v -> c ∈ v -> c ∈ content.
Proof.
  intros Hparse Hk Hc.
  destruct (parse_frontmatter_cases content)
    as [[_ Hp]|(fm & body' & metadata' & Hm & Hrun & Hp)];
    rewrite Hp in Hparse; injection Hparse as <- <-.
  { by rewrite lookup_empty in Hk. }
  destruct (parse_lines_origin _ _ _ _ _ Hrun Hk)
    as [(line & Hin & a & b & -> & _ & _ & ->)|Hempty];
    [|by rewrite lookup_empty in Hempty].
  apply elem_of_strip in Hc.
  rewrite (re_match_sound _ _ _ Hm).
  apply elem_of_app. right. right. apply elem_of_app. left.
  apply (elem_of_split_part NL c fm _ Hin).
  apply elem_of_app. right. by right.
Qed.

Lemma slug_chars (filename : str) (c : char) :
  c ∈ get_slug_from_filename filename -> c ∈ filename.
Proof.
  unfold get_slug_from_filename.
  set (base := replace filename (py ".md") []).
  assert (forall x, x ∈ base -> x ∈ filename) as Hbase
    by (intros x; apply elem_of_replace_from).
  pose proof (split_max_length_le HYPHEN base 3) as Hle.
  pose proof (fun p => elem_of_split_max HYPHEN c base p 3) as Hparts.
  destruct (split_max HYPHEN base 3) as [|p1 [|p2 [|p3 [|p4 [|p5 ps]]]]];
    simpl in *; try (by auto); [|lia].
  intros Hc. apply Hbase, (Hparts p4); [|done].
  do 3 right. left.
Qed.

Section WithMarkdown.

Variable markdown : str -> str.

(** The record of a file of text is a record of text. *)
Lemma build_one_record_text (st st' : state) (f : str * str) :
  python_text (fst f) -> python_text (snd f) ->
  Forall record_text (posts_list st) ->
  build_one markdown st f = Some st' ->
  Forall record_text (posts_list st').
Proof.
  destruct f as [name content]. cbn [fst snd]. intros Hname Hcontent Hst.
  destruct (parse_frontmatter_total content) as [[metadata body] Hparse].
  rewrite (build_one_eq _ _ _ _ _ _ Hparse). cbv zeta. intros [= <-].
  cbn [posts_list]. apply Forall_app. split; [done|].
  constructor; [|constructor].
  assert (forall k d, python_text d ->
                      python_text (default d (metadata !! k))) as Hfield.
  { intros k d Hd. destruct (metadata !! k) as [v|] eqn:Hk; [|done].
    apply (python_text_sub _ content); [done|].
    intros c. by apply (metadata_value_chars _ _ _ _ _ _ Hparse Hk). }
  assert (python_text []) as Hnil by constructor.
  unfold post_record, record_text.
  repeat (constructor;
          [split; [unfold python_text, python_char; decide_by_computation|]|]);
    [apply Hfield, python_text_closed_title | by apply Hfield
    | | by apply Hfield |].
  - apply (python_text_sub _ name); [done|]. intros c. apply slug_chars.
  - constructor.
Qed.

Lemma build_loop_record_text (files : list (str * str)) (st st' : state) :
  Forall (fun f => python_text (fst f) /\ python_text (snd f)) files ->
  Forall record_text (posts_list st) ->
  build_loop markdown files st = Some st' ->
  Forall record_text (posts_list st').
Proof.
  intros Hfiles. revert st.
  induction Hfiles as [|f files [Hn Hc] _ IH]; intros st Hst; simpl.
  - by intros [= <-].
  - destruct (build_one markdown st f) as [st1|] eqn:Hone; [|done]. simpl.
    apply IH. by eapply build_one_record_text.
Qed.

Lemma build_posts_record_text (posts_dir : list (str * str)) (st : state) :
  Forall (fun f => python_text (fst f) /\ python_text (snd f))
    (glob_md posts_dir) ->
  build_posts markdown posts_dir = Some st ->
  Forall record_text (posts_list st).
Proof.
  intros Hfiles. unfold build_posts.
  destruct (build_loop markdown _ _) as [st1|] eqn:Hloop; [|done]. simpl.
  assert (Forall record_text (posts_list st1)) as Hst1.
  { assert (Forall (fun f => python_text (fst f) /\ python_text (snd f))
              (sorted_reverse (glob_md posts_dir))) as Hsorted
      by (by rewrite sorted_reverse_perm).
    assert (Forall record_text
              (posts_list (State [MkDir (py "posts")] []))) as Hnil
      by constructor.
    exact (build_loop_record_text _ _ _ Hsorted Hnil Hloop). }
  intros [= <-]. by destruct (decide (posts_list st1 = [])).
Qed.

End WithMarkdown.

(** *** The text of the index stands for the records *)

Lemma json_member_index_member (kv : str * str) :
  python_text (fst kv) /\ python_text (snd kv) ->
  json_member kv (index_member kv).
Proof.
  intros [Hk Hv]. unfold json_member, index_member.
  eexists _, _. split; [reflexivity|].
  split; by apply json_string_encode.
Qed.

Lemma json_object_index_object (p : post) :
  record_text p -> json_object p (index_object p).
Proof.
  intros Hp. exists (map index_member p). split; [reflexivity|].
  induction Hp as [|kv p Hkv _ IH]; constructor; [|done].
  by apply json_member_index_member.
Qed.

Lemma json_index_index_text (posts : list post) :
  Forall record_text posts -> json_index (index_text posts) posts.
Proof.
  intros Hposts. exists (map index_object posts). split; [reflexivity|].
  induction Hposts as [|p posts Hp _ IH]; constructor; [|done].
  by apply json_object_index_object.
Qed.

(** C3: when the directory holds at least one markdown file, its file
    names are distinct and its markdown files are text, the files are
    processed in strictly descending order of their names, and the last
    effect of the run is the write of the index, which is a JSON text: an
    array indented by two spaces with one object for each processed file,
    in the order of processing, each with the members title, date, slug
    and description in this order, every key and every value written as a
    JSON string literal that stands for it. *)
Theorem build_posts_index_json
    (markdown : str -> str) (posts_dir : list (str * str)) :
  glob_md posts_dir <> [] -> NoDup (map fst posts_dir) ->
  Forall (fun f => python_text (fst f) /\ python_text (snd f))
    (glob_md posts_dir) ->
  exists (processed : list (str * str)) (outs : list (event * post))
         (index : str),
    processed ≡ₚ glob_md posts_dir
    /\ StronglySorted name_gt processed
    /\ Forall2 post_output processed outs
    /\ build_posts markdown posts_dir
       = Some (State
                 (MkDir (py "posts") :: map fst outs
                  ++ [WriteFile (py "posts.json") index])
                 (map snd outs))
    /\ json_index index (map snd outs).
Proof.
  intros Hne Hnd Htext.
  destruct (build_posts_index_order markdown posts_dir Hne Hnd)
    as (processed & outs & Hperm & Hsorted & Houts & Hrun).
  exists processed, outs, (index_text (map snd outs)).
  split_and!; [done | done | done | done |].
  apply json_index_index_text.
  apply (build_posts_record_text markdown posts_dir _ Htext Hrun).
Qed.

Lemma build_posts_index_json_witness :
  glob_md sample_dir <> []
  /\ NoDup (map fst sample_dir)
  /\ Forall (fun f => python_text (fst f) /\ python_text (snd f))
       (glob_md sample_dir)
  /\ map fst (sorted_reverse (glob_md sample_dir))
     = [py "2025-11-05-first-post.md"; py "2025-01-10-third.md";
        py "2025-01-02-second.md"]
  /\ last_event (build_posts toy_markdown sample_dir)
     = Some (WriteFile (py "posts.json") sample_index)
  /\ exists (processed : list (str * str)) (outs : list (event * post))
            (index : str),
       processed ≡ₚ glob_md sample_dir
       /\ StronglySorted name_gt processed
       /\ Forall2 post_output processed outs
       /\ build_posts toy_markdown sample_dir
          = Some (State
                    (MkDir (py "posts") :: map fst outs
                     ++ [WriteFile (py "posts.json") index])
                    (map snd outs))
       /\ json_index index (map snd outs).
Proof.
  assert (glob_md sample_dir <> []) as Hne by (vm_compute; discriminate).
  assert (NoDup (map fst sample_dir)) as Hnd by decide_by_computation.
  assert (Forall (fun f => python_text (fst f) /\ python_text (snd f))
            (glob_md sample_dir)) as Htext
    by (unfold python_text, python_char; decide_by_computation).
  split_and!; [exact Hne | exact Hnd | exact Htext
              | vm_compute; reflexivity | vm_compute; reflexivity |].
  exact (build_posts_index_json toy_markdown sample_dir Hne Hnd Htext).
Defined.

End IndexClaim.
